(** * ratched: the certificate forgery engine (certforgery.c)

    A shallow embedding of [certforgery.c]: the four process-wide key and
    certificate handles, the table of forged server certificates, and the
    operations on them.  The C file keeps its state in file-level statics;
    here they are the fields of [state], threaded through a small state
    monad.  Everything the file calls but does not define (the OpenSSL
    wrappers, [makedirs], [strxcat], [realloc], [strdup]) is an oracle of the
    record [world], so that every statement holds whatever these do.  Taking
    a reference through a [NULL] handle ends the process; the trace records
    it, and a run makes no further call afterwards.

    The table is taken to stay below 2^31 entries, the range of the [int]
    loop counters. *)

From Stdlib Require Import ZArith Ascii String DecimalString.
From stdpp Require Import base option list gmap strings.

Local Open Scope string_scope.
Local Open Scope list_scope.
Local Open Scope Z_scope.

(** ** Handles and configuration *)

(** [X509 *] and [EVP_PKEY *]: the identity of a reference-counted OpenSSL
    object.  A C pointer that may be [NULL] is an [option]. *)
Definition X509 := nat.
Definition EVP_PKEY := nat.

(** Modelled from the spec: [enum keytype_t] of pgmopts.h, which is not among
    the sources.  The code compares against two named values and has a
    fall-through branch that prints the raw number. *)
Inductive keytype_t :=
| KEYTYPE_RSA
| KEYTYPE_ECC
| KEYTYPE_other (raw : Z).

(** Modelled from the spec: [enum cryptosystem_t] of openssl_certs.h
    ("cryptosystem tag (RSA | elliptic-curve)"). *)
Inductive cryptosystem_t :=
| CRYPTOSYSTEM_RSA
| CRYPTOSYSTEM_ECC_FP.

(** Modelled from the spec: [struct keyspec_t] of openssl_certs.h, with the
    fields this file writes.  [cryptosystem = None] is the field as the
    designated initialiser left it, before anybody assigned to it. *)
Record keyspec_t := {
  ks_description : string;
  cryptosystem : option cryptosystem_t;
  rsa_bitlength : Z;
  ecc_fp_curve_name : option string;
}.

(** Modelled from the spec: [struct certificatespec_t] of openssl_certs.h,
    with the fields this file writes.  Members a designated initialiser does
    not name are zero: [None] for pointers, [false], [0]. *)
Record certificatespec_t := {
  description : string;
  subject_pubkey : option EVP_PKEY;
  issuer_privkey : option EVP_PKEY;
  issuer_certificate : option X509;
  common_name : option string;
  mark_certificate : bool;
  subject_alternative_dns_hostname : option string;
  subject_alternative_ipv4_address : Z;
  is_ca_certificate : bool;
  validity_predate_seconds : Z;
  validity_seconds : Z;
  crl_uri : option string;
  ocsp_responder_uri : option string;
}.

(** Modelled from the spec: the members of [*pgm_options] (pgmopts.h) that
    this file reads. *)
Record pgmopts_t := {
  config_dir : string;
  keyspec_keytype : keytype_t;
  keyspec_rsa_modulus_length_bits : Z;
  keyspec_ecc_curvename : option string;
  forged_certs_mark_forged_certificates : bool;
  forged_certs_crl_uri : option string;
  forged_certs_ocsp_responder_uri : option string;
  log_dump_certificates : bool;
}.

Definition MAX_PATH_LEN : Z := 1024.

(** ** The state of the translation unit *)

(** [struct server_certificate_t].  [hostname] is [NULL] for an entry that
    was made for an address alone; [ipv4_nbo] is a [uint32_t]; [certificate]
    is never [NULL], because the only caller of [add_server_certificate]
    passes the pointer it has just tested. *)
Record server_certificate_t := {
  hostname : option string;
  ipv4_nbo : Z;
  certificate : X509;
}.

Inductive loglvl_t := LLVL_FATAL | LLVL_ERROR | LLVL_DEBUG.

(** What the file does to the outside world, in order.  [Ev_segfault] is
    the dereference of a [NULL] pointer, the last thing a process does. *)
Inductive event :=
| Ev_logmsg (lvl : loglvl_t) (msg : string)
| Ev_makedirs (path : string)
| Ev_load_stored_key (spec : keyspec_t) (filename : string)
    (res : option EVP_PKEY)
| Ev_load_stored_certificate (spec : certificatespec_t) (filename : string)
    (selfsigned is_ca : bool) (res : option X509)
| Ev_create_certificate (spec : certificatespec_t) (res : option X509)
| Ev_log_cert (lvl : loglvl_t) (cert : option X509) (msg : string)
| Ev_segfault.

(** The statics of the file, the two OpenSSL object heaps (object to
    reference count; a freed object has no binding), the next unused object
    identity, and the trace of external calls.  The table is a list in
    insertion order; [server_certificate_cnt] is its length. *)
Record state := {
  root_ca : option X509;
  root_ca_key : option EVP_PKEY;
  server_key : option EVP_PKEY;
  client_key : option EVP_PKEY;
  server_certificates : list server_certificate_t;
  x509_objs : gmap nat nat;
  pkey_objs : gmap nat nat;
  next_object : nat;
  trace : list event;
}.

(** Static storage is zero-initialised. *)
Definition initial_state : state := {|
  root_ca := None; root_ca_key := None; server_key := None;
  client_key := None; server_certificates := [];
  x509_objs := ∅; pkey_objs := ∅; next_object := 0%nat; trace := [];
|}.

Definition set_root_ca (v : option X509) (s : state) : state := {|
  root_ca := v; root_ca_key := root_ca_key s; server_key := server_key s;
  client_key := client_key s; server_certificates := server_certificates s;
  x509_objs := x509_objs s; pkey_objs := pkey_objs s;
  next_object := next_object s; trace := trace s |}.

Definition set_root_ca_key (v : option EVP_PKEY) (s : state) : state := {|
  root_ca := root_ca s; root_ca_key := v; server_key := server_key s;
  client_key := client_key s; server_certificates := server_certificates s;
  x509_objs := x509_objs s; pkey_objs := pkey_objs s;
  next_object := next_object s; trace := trace s |}.

Definition set_server_key (v : option EVP_PKEY) (s : state) : state := {|
  root_ca := root_ca s; root_ca_key := root_ca_key s; server_key := v;
  client_key := client_key s; server_certificates := server_certificates s;
  x509_objs := x509_objs s; pkey_objs := pkey_objs s;
  next_object := next_object s; trace := trace s |}.

Definition set_client_key (v : option EVP_PKEY) (s : state) : state := {|
  root_ca := root_ca s; root_ca_key := root_ca_key s;
  server_key := server_key s; client_key := v;
  server_certificates := server_certificates s;
  x509_objs := x509_objs s; pkey_objs := pkey_objs s;
  next_object := next_object s; trace := trace s |}.

Definition set_server_certificates (v : list server_certificate_t)
    (s : state) : state := {|
  root_ca := root_ca s; root_ca_key := root_ca_key s;
  server_key := server_key s; client_key := client_key s;
  server_certificates := v;
  x509_objs := x509_objs s; pkey_objs := pkey_objs s;
  next_object := next_object s; trace := trace s |}.

Definition set_x509_objs (v : gmap nat nat) (s : state) : state := {|
  root_ca := root_ca s; root_ca_key := root_ca_key s;
  server_key := server_key s; client_key := client_key s;
  server_certificates := server_certificates s;
  x509_objs := v; pkey_objs := pkey_objs s;
  next_object := next_object s; trace := trace s |}.

Definition set_pkey_objs (v : gmap nat nat) (s : state) : state := {|
  root_ca := root_ca s; root_ca_key := root_ca_key s;
  server_key := server_key s; client_key := client_key s;
  server_certificates := server_certificates s;
  x509_objs := x509_objs s; pkey_objs := v;
  next_object := next_object s; trace := trace s |}.

Definition set_next_object (v : nat) (s : state) : state := {|
  root_ca := root_ca s; root_ca_key := root_ca_key s;
  server_key := server_key s; client_key := client_key s;
  server_certificates := server_certificates s;
  x509_objs := x509_objs s; pkey_objs := pkey_objs s;
  next_object := v; trace := trace s |}.

Definition set_trace (v : list event) (s : state) : state := {|
  root_ca := root_ca s; root_ca_key := root_ca_key s;
  server_key := server_key s; client_key := client_key s;
  server_certificates := server_certificates s;
  x509_objs := x509_objs s; pkey_objs := pkey_objs s;
  next_object := next_object s; trace := v |}.

Arguments set_root_ca _ _ /.
Arguments set_root_ca_key _ _ /.
Arguments set_server_key _ _ /.
Arguments set_client_key _ _ /.
Arguments set_server_certificates _ _ /.
Arguments set_x509_objs _ _ /.
Arguments set_pkey_objs _ _ /.
Arguments set_next_object _ _ /.
Arguments set_trace _ _ /.

(** ** The state monad *)

Definition M (A : Type) : Type := state → A * state.

#[global] Instance M_ret : MRet M := λ A a s, (a, s).
#[global] Instance M_bind : MBind M := λ A B k m s,
  let (a, s') := m s in k a s'.

Definition gets {A} (f : state → A) : M A := λ s, (f s, s).
Definition modify (f : state → state) : M unit := λ s, (tt, f s).

Definition emit (e : event) : M unit :=
  modify (λ s, set_trace (trace s ++ [e]) s).

(** ** The collaborators *)

(** The answers of the outside world during one call into the file.  Objects
    are allocated by the model, so an OpenSSL oracle only says whether the
    call succeeds. *)
Record world := {
  makedirs_ok : string → bool;
  strxcat_result : Z → list string → option string;
  load_stored_key_ok : keyspec_t → string → bool;
  load_stored_certificate_ok :
    certificatespec_t → string → bool → bool → bool;
  create_certificate_ok : certificatespec_t → bool;
  realloc_ok : nat → bool;
  strdup_ok : string → bool;
}.

Definition logmsg (lvl : loglvl_t) (msg : string) : M unit :=
  emit (Ev_logmsg lvl msg).

Definition log_cert (lvl : loglvl_t) (cert : option X509) (msg : string)
    : M unit :=
  emit (Ev_log_cert lvl cert msg).

(** [makedirs] reports whether the directory exists afterwards. *)
Definition makedirs (w : world) (path : string) : M bool :=
  emit (Ev_makedirs path) ;; mret (makedirs_ok w path).

(** A new object with one reference, owned by the caller. *)
Definition new_x509 : M X509 := λ s,
  let c := next_object s in
  (c, set_next_object (S c) (set_x509_objs (<[c := 1%nat]> (x509_objs s)) s)).

Definition new_pkey : M EVP_PKEY := λ s,
  let k := next_object s in
  (k, set_next_object (S k) (set_pkey_objs (<[k := 1%nat]> (pkey_objs s)) s)).

(** Reference counting on an object heap.  Taking a reference on a dead
    object, or dropping one, is undefined in C; the model leaves the heap
    alone there. *)
Definition up_ref (o : nat) (h : gmap nat nat) : gmap nat nat :=
  match h !! o with
  | Some n => <[o := S n]> h
  | None => h
  end.

Definition drop_ref (o : nat) (h : gmap nat nat) : gmap nat nat :=
  match h !! o with
  | Some (S (S n)) => <[o := S n]> h
  | Some _ => delete o h
  | None => h
  end.

Arguments up_ref : simpl never.
Arguments drop_ref : simpl never.

(** [X509_up_ref] and [EVP_PKEY_up_ref] increment a counter inside the
    object: called with [NULL] they dereference it, and the process dies. *)
Definition X509_up_ref (c : option X509) : M unit :=
  match c with
  | Some c => modify (λ s, set_x509_objs (up_ref c (x509_objs s)) s)
  | None => emit Ev_segfault
  end.

Definition EVP_PKEY_up_ref (k : option EVP_PKEY) : M unit :=
  match k with
  | Some k => modify (λ s, set_pkey_objs (up_ref k (pkey_objs s)) s)
  | None => emit Ev_segfault
  end.

(** [X509_free(NULL)] and [EVP_PKEY_free(NULL)] do nothing. *)
Definition X509_free (c : option X509) : M unit :=
  match c with
  | Some c => modify (λ s, set_x509_objs (drop_ref c (x509_objs s)) s)
  | None => mret tt
  end.

Definition EVP_PKEY_free (k : option EVP_PKEY) : M unit :=
  match k with
  | Some k => modify (λ s, set_pkey_objs (drop_ref k (pkey_objs s)) s)
  | None => mret tt
  end.

Definition openssl_load_stored_key (w : world) (spec : keyspec_t)
    (filename : string) : M (option EVP_PKEY) :=
  res ← (if load_stored_key_ok w spec filename
             then k ← new_pkey; mret (Some k)
             else mret None);
  emit (Ev_load_stored_key spec filename res) ;;
  mret res.

Definition openssl_load_stored_certificate (w : world)
    (spec : certificatespec_t) (filename : string)
    (selfsigned is_ca : bool) : M (option X509) :=
  res ← (if load_stored_certificate_ok w spec filename selfsigned is_ca
             then c ← new_x509; mret (Some c)
             else mret None);
  emit (Ev_load_stored_certificate spec filename selfsigned is_ca res) ;;
  mret res.

Definition openssl_create_certificate (w : world)
    (spec : certificatespec_t) : M (option X509) :=
  res ← (if create_certificate_ok w spec
             then c ← new_x509; mret (Some c)
             else mret None);
  emit (Ev_create_certificate spec res) ;;
  mret res.

(** [realloc] of the table to [n] entries: the old entries survive a
    successful call, and a failed one leaves the table as it was. *)
Definition realloc (w : world) (n : nat) : bool := realloc_ok w n.

(** [strcmp]: only the sign is specified; zero means equal texts. *)
Definition strcmp (a b : string) : Z :=
  match String.compare a b with
  | Eq => 0
  | Lt => -1
  | Gt => 1
  end.

(** ** Dotted-decimal text *)

(** ["%d"] for a non-negative [int]: at most ten digits. *)
Fixpoint print_digits (fuel : nat) (n : Z) (acc : string) : string :=
  match fuel with
  | O => acc
  | S fuel' =>
      let acc' := String (ascii_of_nat (48 + Z.to_nat (n mod 10))%nat) acc in
      if n / 10 =? 0 then acc' else print_digits fuel' (n / 10) acc'
  end.

Definition print_d (n : Z) : string := print_digits 10 n "".

(** Modelled from the spec: the macros [FMT_IPv4] and [PRI_IPv4] of ipfwd.h,
    which is not among the sources ("format the address as dotted-decimal
    text").  The address is kept in network byte order, so its first octet
    is the byte at the lowest address of the [uint32_t]: the least
    significant one on the little-endian hosts the proxy runs on. *)
Definition FMT_IPv4 (ipv4_nbo : Z) : list Z :=
  [ Z.land (Z.shiftr ipv4_nbo 0) 255; Z.land (Z.shiftr ipv4_nbo 8) 255;
    Z.land (Z.shiftr ipv4_nbo 16) 255; Z.land (Z.shiftr ipv4_nbo 24) 255 ].

Definition PRI_IPv4 (octets : list Z) : string :=
  String.concat "." (map print_d octets).

(** [snprintf(buf, size, ...)] stores at most [size - 1] characters of the
    formatted text. *)
Definition snprintf (size : nat) (text : string) : string :=
  substring 0 (size - 1) text.

(** ** The certificate cache *)

(** Lines 57-61: the loop of the address-only search, at index [i] with
    [tbl] the entries from [i] on. *)
Fixpoint ip_only_search (ip : Z) (tbl : list server_certificate_t)
    (i : nat) : option nat :=
  match tbl with
  | [] => None
  | e :: rest =>
      if negb (bool_decide (is_Some (hostname e))) && (ip =? ipv4_nbo e)
      then Some i
      else ip_only_search ip rest (S i)
  end.

(** Lines 64-68: the loop of the hostname and address search. *)
Fixpoint hostname_ip_search (hn : string) (ip : Z)
    (tbl : list server_certificate_t) (i : nat) : option nat :=
  match tbl with
  | [] => None
  | e :: rest =>
      if match hostname e with
         | Some ehn => (strcmp hn ehn =? 0) && (ip =? ipv4_nbo e)
         | None => false
         end
      then Some i
      else hostname_ip_search hn ip rest (S i)
  end.

(** The result is the index of the entry the returned pointer refers to. *)
Definition get_server_certificate (tbl : list server_certificate_t)
    (hn : option string) (ip : Z) : option nat :=
  match hn with
  | None => ip_only_search ip tbl 0
  | Some hn => hostname_ip_search hn ip tbl 0
  end.

(** [strdup] returns a copy of the text, or [NULL] when there is no memory
    for it. *)
Definition strdup (w : world) (s : string) : option string :=
  if strdup_ok w s then Some s else None.

(** Lines 81-83 store the result of [strdup] without a test: when the copy
    fails, the entry of a hostname request has no hostname. *)
Definition add_server_certificate (w : world) (hn : option string) (ip : Z)
    (cert : X509) : M (option nat) :=
  cnt ← gets (λ s, length (server_certificates s));
  if realloc w (cnt + 1)%nat then
    modify (λ s, set_server_certificates
      (server_certificates s ++
        [ {| hostname := hn ≫= strdup w; ipv4_nbo := ip;
             certificate := cert |} ]) s) ;;
    cnt' ← gets (λ s, length (server_certificates s));
    mret (Some (cnt' - 1)%nat)
  else
    logmsg LLVL_FATAL "Failed to realloc(3) server_certificates: %s" ;;
    mret None.

(** ** File names *)

Definition get_config_filename (w : world) (opts : pgmopts_t)
    (suffix : string) : option string :=
  strxcat_result w MAX_PATH_LEN [config_dir opts; "/"; suffix].

Definition get_root_ca_filename w opts := get_config_filename w opts "root.crt".
Definition get_root_key_filename w opts := get_config_filename w opts "root.key".
Definition get_server_key_filename w opts :=
  get_config_filename w opts "server.key".
Definition get_client_key_filename w opts :=
  get_config_filename w opts "client.key".

(** ** Key store and root trust anchor *)

(** [struct keyspec_t keyspec = { .description = d };] *)
Definition keyspec_init (d : string) : keyspec_t := {|
  ks_description := d; cryptosystem := None; rsa_bitlength := 0;
  ecc_fp_curve_name := None |}.

Definition fill_pgmopts_keyspec (opts : pgmopts_t) (keyspec : keyspec_t)
    : M keyspec_t :=
  match keyspec_keytype opts with
  | KEYTYPE_RSA =>
      mret {| ks_description := ks_description keyspec;
              cryptosystem := Some CRYPTOSYSTEM_RSA;
              rsa_bitlength := keyspec_rsa_modulus_length_bits opts;
              ecc_fp_curve_name := ecc_fp_curve_name keyspec |}
  | KEYTYPE_ECC =>
      mret {| ks_description := ks_description keyspec;
              cryptosystem := Some CRYPTOSYSTEM_ECC_FP;
              rsa_bitlength := rsa_bitlength keyspec;
              ecc_fp_curve_name := keyspec_ecc_curvename opts |}
  | KEYTYPE_other _ =>
      logmsg LLVL_FATAL
        "Unknown keyspec.keytype given in program options (0x%x)" ;;
      mret keyspec
  end.

(** [int] arithmetic: 32 bits, two's complement. *)
Definition int_wrap (z : Z) : Z := (z + 2 ^ 31) mod 2 ^ 32 - 2 ^ 31.
Definition int_mul (a b : Z) : Z := int_wrap (a * b).

(** Lines 176-185. *)
Definition root_certspec (opts : pgmopts_t) (s : state)
    : certificatespec_t := {|
  description := "root";
  subject_pubkey := root_ca_key s;
  issuer_privkey := root_ca_key s;
  issuer_certificate := None;
  common_name := Some "Evil root certificate";
  mark_certificate := forged_certs_mark_forged_certificates opts;
  subject_alternative_dns_hostname := None;
  subject_alternative_ipv4_address := 0;
  is_ca_certificate := true;
  validity_predate_seconds := 86400;
  validity_seconds := int_mul (int_mul 86400 365) 5;
  crl_uri := None;
  ocsp_responder_uri := None |}.

(** The four blocks of [certforgery_init]; [false] is the early
    [return false]. *)
Definition init_root_key (w : world) (opts : pgmopts_t) : M bool :=
  keyspec ← fill_pgmopts_keyspec opts (keyspec_init "root");
  match get_root_key_filename w opts with
  | Some filename =>
      key ← openssl_load_stored_key w keyspec filename;
      modify (set_root_ca_key key) ;;
      match key with
      | Some _ => mret true
      | None =>
          logmsg LLVL_FATAL
            "Unable to load or create root CA private keypair." ;;
          mret false
      end
  | None =>
      logmsg LLVL_FATAL "Could not get root CA private key filename." ;;
      mret false
  end.

Definition init_server_key (w : world) (opts : pgmopts_t) : M bool :=
  keyspec ← fill_pgmopts_keyspec opts (keyspec_init "TLS server");
  match get_server_key_filename w opts with
  | Some filename =>
      key ← openssl_load_stored_key w keyspec filename;
      modify (set_server_key key) ;;
      match key with
      | Some _ => mret true
      | None =>
          logmsg LLVL_FATAL
            "Unable to load or create server private keypair." ;;
          mret false
      end
  | None =>
      logmsg LLVL_FATAL "Could not get server private key filename." ;;
      mret false
  end.

Definition init_client_key (w : world) (opts : pgmopts_t) : M bool :=
  keyspec ← fill_pgmopts_keyspec opts (keyspec_init "TLS client");
  match get_client_key_filename w opts with
  | Some filename =>
      key ← openssl_load_stored_key w keyspec filename;
      modify (set_client_key key) ;;
      match key with
      | Some _ => mret true
      | None =>
          logmsg LLVL_FATAL
            "Unable to load or create client private keypair." ;;
          mret false
      end
  | None =>
      logmsg LLVL_FATAL "Could not get client private key filename." ;;
      mret false
  end.

Definition init_root_ca (w : world) (opts : pgmopts_t) : M bool :=
  certspec ← gets (root_certspec opts);
  match get_root_ca_filename w opts with
  | Some filename =>
      cert ← openssl_load_stored_certificate w certspec filename true true;
      modify (set_root_ca cert) ;;
      log_cert LLVL_DEBUG cert "Used root certificate" ;;
      mret true
  | None =>
      logmsg LLVL_FATAL "Could not get root CA filename." ;;
      mret false
  end.

Definition certforgery_init (w : world) (opts : pgmopts_t) : M bool :=
  makedirs w (config_dir opts) ;;
  ok ← init_root_key w opts;
  if negb ok then mret false else
  ok ← init_server_key w opts;
  if negb ok then mret false else
  ok ← init_client_key w opts;
  if negb ok then mret false else
  init_root_ca w opts.

(** Lines 198-216: the accessors take a reference on the handle without
    looking at it.  With a [NULL] handle the call does not return. *)
Definition get_forged_root_certificate : M (option X509) :=
  c ← gets root_ca; X509_up_ref c ;; mret c.

Definition get_forged_root_key : M (option EVP_PKEY) :=
  k ← gets root_ca_key; EVP_PKEY_up_ref k ;; mret k.

Definition get_tls_server_key : M (option EVP_PKEY) :=
  k ← gets server_key; EVP_PKEY_up_ref k ;; mret k.

Definition get_tls_client_key : M (option EVP_PKEY) :=
  k ← gets client_key; EVP_PKEY_up_ref k ;; mret k.

(** ** The forgery orchestrator *)

(** Lines 226-246: the specification handed to the construction primitive. *)
Definition forge_certspec (opts : pgmopts_t) (s : state)
    (hn : option string) (ip : Z) : certificatespec_t :=
  let certspec := {|
    description := "TLS server";
    subject_pubkey := server_key s;
    issuer_privkey := root_ca_key s;
    issuer_certificate := root_ca s;
    common_name := None;
    mark_certificate := forged_certs_mark_forged_certificates opts;
    subject_alternative_dns_hostname := None;
    subject_alternative_ipv4_address := ip;
    is_ca_certificate := false;
    validity_predate_seconds := 86400;
    validity_seconds := int_mul (int_mul 86400 365) 1;
    crl_uri := forged_certs_crl_uri opts;
    ocsp_responder_uri := forged_certs_ocsp_responder_uri opts |} in
  let set_names (dns cn : option string) := {|
    description := description certspec;
    subject_pubkey := subject_pubkey certspec;
    issuer_privkey := issuer_privkey certspec;
    issuer_certificate := issuer_certificate certspec;
    common_name := cn;
    mark_certificate := mark_certificate certspec;
    subject_alternative_dns_hostname := dns;
    subject_alternative_ipv4_address :=
      subject_alternative_ipv4_address certspec;
    is_ca_certificate := is_ca_certificate certspec;
    validity_predate_seconds := validity_predate_seconds certspec;
    validity_seconds := validity_seconds certspec;
    crl_uri := crl_uri certspec;
    ocsp_responder_uri := ocsp_responder_uri certspec |} in
  match hn with
  | Some h => set_names (Some h) (Some h)
  | None =>
      let ipv4 := snprintf 16 (PRI_IPv4 (FMT_IPv4 ip)) in
      set_names (subject_alternative_dns_hostname certspec) (Some ipv4)
  end.

(** [entry->certificate] for the entry at index [i]. *)
Definition entry_certificate (s : state) (i : nat) : option X509 :=
  certificate <$> server_certificates s !! i.

Arguments forge_certspec : simpl never.

(** Lines 221-225: the text of the diagnostic differs with the hostname. *)
Definition forging_message (hn : option string) : string :=
  match hn with
  | Some _ => "Forging certificate for %s (PRI_IPv4)"
  | None => "Forging certificate for PRI_IPv4"
  end.

(** Lines 220-257: what happens when the lookup found nothing. *)
Definition forge_on_miss (w : world) (opts : pgmopts_t)
    (hn : option string) (ip : Z) : M (option nat) :=
  logmsg LLVL_DEBUG (forging_message hn) ;;
  certspec ← gets (λ s, forge_certspec opts s hn ip);
  cert ← openssl_create_certificate w certspec;
  match cert with
  | Some c =>
      entry ← add_server_certificate w hn ip c;
      match entry with
      | None =>
          logmsg LLVL_ERROR
            "Failed to add server certificate for %s to database." ;;
          X509_free (Some c) ;;
          mret None
      | Some i =>
          (if log_dump_certificates opts
           then c' ← gets (λ s, entry_certificate s i);
                log_cert LLVL_DEBUG c' "Created forged server certificate"
           else mret tt) ;;
          mret (Some i)
      end
  | None => mret None
  end.

Definition forge_certificate_for_server (w : world) (opts : pgmopts_t)
    (hn : option string) (ip : Z) : M (option X509) :=
  entry ← gets (λ s, get_server_certificate (server_certificates s) hn ip);
  entry ← match entry with
          | Some i => mret (Some i)
          | None => forge_on_miss w opts hn ip
          end;
  match entry with
  | None =>
      logmsg LLVL_FATAL "Could not create server certificate." ;;
      mret None
  | Some i =>
      c ← gets (λ s, entry_certificate s i);
      X509_up_ref c ;;
      mret c
  end.

Definition certforgery_deinit : M unit :=
  c ← gets root_ca; X509_free c ;;
  k ← gets root_ca_key; EVP_PKEY_free k ;;
  k ← gets server_key; EVP_PKEY_free k ;;
  k ← gets client_key; EVP_PKEY_free k.

(** ** Sequences of calls *)

(** The entry points a caller may use after start-up. *)
Inductive later_call :=
| Call_forge_certificate_for_server (hn : option string) (ip : Z)
| Call_get_forged_root_certificate
| Call_get_forged_root_key
| Call_get_tls_server_key
| Call_get_tls_client_key
| Call_certforgery_deinit.

Inductive api_call :=
| Call_certforgery_init
| Call_later (c : later_call).

Definition exec_later (w : world) (opts : pgmopts_t) (c : later_call)
    (s : state) : state :=
  match c with
  | Call_forge_certificate_for_server hn ip =>
      (forge_certificate_for_server w opts hn ip s).2
  | Call_get_forged_root_certificate => (get_forged_root_certificate s).2
  | Call_get_forged_root_key => (get_forged_root_key s).2
  | Call_get_tls_server_key => (get_tls_server_key s).2
  | Call_get_tls_client_key => (get_tls_client_key s).2
  | Call_certforgery_deinit => (certforgery_deinit s).2
  end.

Definition exec (w : world) (opts : pgmopts_t) (c : api_call)
    (s : state) : state :=
  match c with
  | Call_certforgery_init => (certforgery_init w opts s).2
  | Call_later c => exec_later w opts c s
  end.

(** The process has died: its trace holds a [NULL] dereference. *)
Definition is_segfault (e : event) : bool :=
  match e with
  | Ev_segfault => true
  | _ => false
  end.

Definition crashed (s : state) : bool := existsb is_segfault (trace s).

(** Calls made one after the other, each against the answers the world
    gives during that call.  A process that has died makes no further
    call. *)
Definition run_later (opts : pgmopts_t) (cs : list (world * later_call))
    (s : state) : state :=
  foldl (λ s wc, if crashed s then s else exec_later wc.1 opts wc.2 s) s cs.

Definition run (opts : pgmopts_t) (cs : list (world * api_call))
    (s : state) : state :=
  foldl (λ s wc, if crashed s then s else exec wc.1 opts wc.2 s) s cs.

(** ** Vocabulary of the design *)

(** The matching rule in the words of the design: an absent hostname matches
    only entries without a hostname, a present one only entries with the
    same text, and the address has to agree in both cases. *)
Definition matches_identity (hn : option string) (ip : Z)
    (e : server_certificate_t) : bool :=
  match hn, hostname e with
  | None, None => bool_decide (ipv4_nbo e = ip)
  | Some a, Some b => bool_decide (a = b) && bool_decide (ipv4_nbo e = ip)
  | _, _ => false
  end.

(** Dotted-decimal text in the words of the design: the four octets of the
    address, first octet first, each as a decimal numeral (printed by the
    standard library), with dots in between. *)
Definition octet (ip : Z) (k : Z) : Z := (ip / 256 ^ k) mod 256.

Definition decimal (n : Z) : string :=
  NilZero.string_of_uint (N.to_uint (Z.to_N n)).

Definition dotted_decimal (ip : Z) : string :=
  decimal (octet ip 0) +:+ "." +:+ decimal (octet ip 1) +:+ "." +:+
  decimal (octet ip 2) +:+ "." +:+ decimal (octet ip 3).

(** At most one entry per identity: two entries with equal hostname
    components (both absent, or both present with the same text) and equal
    addresses are the same entry. *)
Definition at_most_one_per_identity (tbl : list server_certificate_t)
    : Prop :=
  ∀ i j e1 e2,
    tbl !! i = Some e1 → tbl !! j = Some e2 →
    hostname e1 = hostname e2 → ipv4_nbo e1 = ipv4_nbo e2 → i = j.

(** The key specification [fill_pgmopts_keyspec] leaves in a structure
    initialised with description [d], and what it logs on the way. *)
Definition keyspec_for (opts : pgmopts_t) (d : string) : keyspec_t :=
  (fill_pgmopts_keyspec opts (keyspec_init d) initial_state).1.

Definition keytype_events (opts : pgmopts_t) : list event :=
  trace (fill_pgmopts_keyspec opts (keyspec_init "") initial_state).2.

(** The same world, except for the answer of [makedirs]. *)
Definition with_makedirs (b : bool) (w : world) : world := {|
  makedirs_ok := λ _, b;
  strxcat_result := strxcat_result w;
  load_stored_key_ok := load_stored_key_ok w;
  load_stored_certificate_ok := load_stored_certificate_ok w;
  create_certificate_ok := create_certificate_ok w;
  realloc_ok := realloc_ok w;
  strdup_ok := strdup_ok w |}.

(** The table holds an entry that a lookup for [(hn, ip)] finds and whose
    certificate is [c]. *)
Definition cached_as (hn : option string) (ip : Z) (c : X509)
    (tbl : list server_certificate_t) : Prop :=
  ∃ i e, get_server_certificate tbl hn ip = Some i ∧
         tbl !! i = Some e ∧ certificate e = c.

(** ** Example inputs *)

(** A world in which every collaborator succeeds; [strxcat] joins the
    parts. *)
Definition world_ok : world := {|
  makedirs_ok := λ _, true;
  strxcat_result := λ _ parts, Some (String.concat "" parts);
  load_stored_key_ok := λ _ _, true;
  load_stored_certificate_ok := λ _ _ _ _, true;
  create_certificate_ok := λ _, true;
  realloc_ok := λ _, true;
  strdup_ok := λ _, true |}.

Definition opts_example : pgmopts_t := {|
  config_dir := "/var/lib/ratched";
  keyspec_keytype := KEYTYPE_ECC;
  keyspec_rsa_modulus_length_bits := 2048;
  keyspec_ecc_curvename := Some "secp384r1";
  forged_certs_mark_forged_certificates := false;
  forged_certs_crl_uri := None;
  forged_certs_ocsp_responder_uri := None;
  log_dump_certificates := false |}.

(** The state after a start-up in which everything worked. *)
Definition started : state :=
  (certforgery_init world_ok opts_example initial_state).2.

(** 192.0.2.5 and 10.0.0.1 in network byte order. *)
Definition ip_192_0_2_5 : Z := 192 + 0 * 2 ^ 8 + 2 * 2 ^ 16 + 5 * 2 ^ 24.
Definition ip_10_0_0_1 : Z := 10 + 0 * 2 ^ 8 + 0 * 2 ^ 16 + 1 * 2 ^ 24.

(** Worlds in which exactly one collaborator fails. *)
Definition world_no_directory : world := with_makedirs false world_ok.

Definition world_no_root_key : world := {|
  makedirs_ok := λ _, false;
  strxcat_result := strxcat_result world_ok;
  load_stored_key_ok := λ _ _, false;
  load_stored_certificate_ok := load_stored_certificate_ok world_ok;
  create_certificate_ok := create_certificate_ok world_ok;
  realloc_ok := realloc_ok world_ok;
  strdup_ok := strdup_ok world_ok |}.

Definition world_no_root_certificate : world := {|
  makedirs_ok := makedirs_ok world_ok;
  strxcat_result := strxcat_result world_ok;
  load_stored_key_ok := load_stored_key_ok world_ok;
  load_stored_certificate_ok := λ _ _ _ _, false;
  create_certificate_ok := create_certificate_ok world_ok;
  realloc_ok := realloc_ok world_ok;
  strdup_ok := strdup_ok world_ok |}.

Definition world_no_certificate : world := {|
  makedirs_ok := makedirs_ok world_ok;
  strxcat_result := strxcat_result world_ok;
  load_stored_key_ok := load_stored_key_ok world_ok;
  load_stored_certificate_ok := load_stored_certificate_ok world_ok;
  create_certificate_ok := λ _, false;
  realloc_ok := realloc_ok world_ok;
  strdup_ok := strdup_ok world_ok |}.

Definition world_no_memory : world := {|
  makedirs_ok := makedirs_ok world_ok;
  strxcat_result := strxcat_result world_ok;
  load_stored_key_ok := load_stored_key_ok world_ok;
  load_stored_certificate_ok := load_stored_certificate_ok world_ok;
  create_certificate_ok := create_certificate_ok world_ok;
  realloc_ok := λ _, false;
  strdup_ok := strdup_ok world_ok |}.

(** No memory for the copy of a hostname. *)
Definition world_no_strdup : world := {|
  makedirs_ok := makedirs_ok world_ok;
  strxcat_result := strxcat_result world_ok;
  load_stored_key_ok := load_stored_key_ok world_ok;
  load_stored_certificate_ok := load_stored_certificate_ok world_ok;
  create_certificate_ok := create_certificate_ok world_ok;
  realloc_ok := realloc_ok world_ok;
  strdup_ok := λ _, false |}.

(** Options whose key type is neither RSA nor elliptic-curve. *)
Definition opts_unknown_keytype : pgmopts_t := {|
  config_dir := config_dir opts_example;
  keyspec_keytype := KEYTYPE_other 7;
  keyspec_rsa_modulus_length_bits := 0;
  keyspec_ecc_curvename := None;
  forged_certs_mark_forged_certificates := false;
  forged_certs_crl_uri := None;
  forged_certs_ocsp_responder_uri := None;
  log_dump_certificates := false |}.

(** ** Vocabulary of the further properties *)

(** The identity an entry is filed under. *)
Definition identity (e : server_certificate_t) : option string * Z :=
  (hostname e, ipv4_nbo e).

(** The identity a call asks a certificate for, if it is a call of the
    orchestrator. *)
Definition request_of (c : api_call) : option (option string * Z) :=
  match c with
  | Call_later (Call_forge_certificate_for_server hn ip) => Some (hn, ip)
  | _ => None
  end.

(** A world in which every hostname can be copied. *)
Definition strdup_succeeds (w : world) : Prop :=
  ∀ h, strdup_ok w h = true.

(** A world in which certificates can be constructed, the table can grow
    and hostnames can be copied. *)
Definition world_succeeds (w : world) : Prop :=
  (∀ spec, create_certificate_ok w spec = true) ∧
  (∀ n, realloc_ok w n = true) ∧
  strdup_succeeds w.

(** Every object of heap [h] has an identity below [k]. *)
Definition heap_below (h : gmap nat nat) (k : nat) : Prop :=
  ∀ o n, h !! o = Some n → (o < k)%nat.

(** Every certificate of the table is a live object of heap [h] with at
    least one reference. *)
Definition certs_live (tbl : list server_certificate_t) (h : gmap nat nat)
    : Prop :=
  ∀ e, e ∈ tbl → ∃ n, h !! (certificate e : nat) = Some (S n).

(** The object heaps and the table fit together: no object carries an
    identity that is still to be handed out, every certificate of the table
    is live, no two entries share a certificate, and the root certificate is
    not a certificate of the table. *)
Definition objects_wf (s : state) : Prop :=
  heap_below (x509_objs s) (next_object s) ∧
  heap_below (pkey_objs s) (next_object s) ∧
  certs_live (server_certificates s) (x509_objs s) ∧
  NoDup (certificate <$> server_certificates s) ∧
  (∀ r, root_ca s = Some r →
        (r < next_object s)%nat ∧
        ∀ e, e ∈ server_certificates s → certificate e ≠ r).

(** Reference counting through a pointer that may be [NULL]. *)
Definition up_ref_opt (o : option nat) (h : gmap nat nat) : gmap nat nat :=
  match o with Some k => up_ref k h | None => h end.

Definition drop_ref_opt (o : option nat) (h : gmap nat nat)
    : gmap nat nat :=
  match o with Some k => drop_ref k h | None => h end.

(** The heap entry of an object on which [k] references are left. *)
Definition outstanding (k : nat) : option nat :=
  match k with O => None | S _ => Some k end.

(** The four accessors. *)
Inductive getter :=
| Get_forged_root_certificate
| Get_forged_root_key
| Get_tls_server_key
| Get_tls_client_key.

#[global] Instance getter_eq_dec : EqDecision getter.
Proof. solve_decision. Defined.

Definition later_of_getter (g : getter) : later_call :=
  match g with
  | Get_forged_root_certificate => Call_get_forged_root_certificate
  | Get_forged_root_key => Call_get_forged_root_key
  | Get_tls_server_key => Call_get_tls_server_key
  | Get_tls_client_key => Call_get_tls_client_key
  end.

(** How often [g] occurs in a sequence of accessor calls. *)
Definition calls_of (g : getter) (gs : list getter) : nat :=
  length (filter (λ x, x = g) gs).

Definition run_getters (opts : pgmopts_t) (gs : list getter) (s : state)
    : state :=
  run_later opts ((λ g, (world_ok, later_of_getter g)) <$> gs) s.

(** A call other than [certforgery_deinit]. *)
Definition is_deinit (c : api_call) : bool :=
  match c with
  | Call_later Call_certforgery_deinit => true
  | _ => false
  end.

(** * Properties *)

(** ** Lookup *)

Lemma strcmp_zero a b : (strcmp a b =? 0) = bool_decide (a = b).
Proof.
  unfold strcmp. case_bool_decide as Hab.
  - subst b. pose proof (String.compare_antisym a a) as Hs.
    destruct (String.compare a a); simpl in Hs; try discriminate Hs.
    reflexivity.
  - destruct (String.compare a b) eqn:Hc; try reflexivity.
    apply String.compare_eq_iff in Hc. contradiction.
Qed.

Lemma Z_eqb_decide (a b : Z) : (a =? b) = bool_decide (b = a).
Proof.
  case_bool_decide as H.
  - subst. apply Z.eqb_refl.
  - apply Z.eqb_neq. congruence.
Qed.

Lemma ip_only_test ip e :
  negb (bool_decide (is_Some (hostname e))) && (ip =? ipv4_nbo e)
  = matches_identity None ip e.
Proof.
  unfold matches_identity. rewrite Z_eqb_decide.
  destruct (hostname e); [|reflexivity].
  rewrite bool_decide_eq_true_2 by eauto. reflexivity.
Qed.

Lemma hostname_ip_test hn ip e :
  match hostname e with
  | Some ehn => (strcmp hn ehn =? 0) && (ip =? ipv4_nbo e)
  | None => false
  end = matches_identity (Some hn) ip e.
Proof.
  unfold matches_identity. destruct (hostname e); [|reflexivity].
  by rewrite strcmp_zero, Z_eqb_decide.
Qed.

Lemma ip_only_search_find ip tbl i :
  ip_only_search ip tbl i
  = (λ p, (i + p.1)%nat) <$> list_find (λ e, matches_identity None ip e) tbl.
Proof.
  revert i. induction tbl as [|e rest IH]; intros i; [reflexivity|].
  cbn [ip_only_search list_find]. rewrite ip_only_test, IH.
  destruct (matches_identity None ip e).
  - rewrite decide_True by exact I. cbn. f_equal. lia.
  - rewrite decide_False by (intros []).
    destruct (list_find _ rest) as [[j y]|]; cbn; f_equal; lia.
Qed.

Lemma hostname_ip_search_find hn ip tbl i :
  hostname_ip_search hn ip tbl i
  = (λ p, (i + p.1)%nat)
      <$> list_find (λ e, matches_identity (Some hn) ip e) tbl.
Proof.
  revert i. induction tbl as [|e rest IH]; intros i; [reflexivity|].
  cbn [hostname_ip_search list_find]. rewrite hostname_ip_test, IH.
  destruct (matches_identity (Some hn) ip e).
  - rewrite decide_True by exact I. cbn. f_equal. lia.
  - rewrite decide_False by (intros []).
    destruct (list_find _ rest) as [[j y]|]; cbn; f_equal; lia.
Qed.

Lemma get_server_certificate_find tbl hn ip :
  get_server_certificate tbl hn ip
  = fst <$> list_find (λ e, matches_identity hn ip e) tbl.
Proof.
  destruct hn as [hn|]; cbn [get_server_certificate].
  - rewrite hostname_ip_search_find.
    destruct (list_find _ tbl) as [[j y]|]; reflexivity.
  - rewrite ip_only_search_find.
    destruct (list_find _ tbl) as [[j y]|]; reflexivity.
Qed.

Lemma get_server_certificate_Some tbl hn ip i :
  get_server_certificate tbl hn ip = Some i ↔
  ∃ e, tbl !! i = Some e ∧ matches_identity hn ip e = true ∧
       ∀ j e', (j < i)%nat → tbl !! j = Some e' →
               matches_identity hn ip e' = false.
Proof.
  rewrite get_server_certificate_find. split.
  - destruct (list_find _ tbl) as [[j y]|] eqn:Hf; [|discriminate].
    cbn. intros [= <-]. apply list_find_Some in Hf as (Hl & Hm & Hfirst).
    exists y. split_and!; [done|by apply Is_true_true|].
    intros k e' Hk He'. specialize (Hfirst k e' He' Hk).
    destruct (matches_identity hn ip e'); [|done]. by destruct Hfirst.
  - intros (e & Hl & Hm & Hfirst).
    assert (list_find (λ e, matches_identity hn ip e) tbl = Some (i, e))
      as ->; [|done].
    apply list_find_Some. split_and!; [done|by apply Is_true_true|].
    intros j y Hy Hj Hmy. apply Is_true_true in Hmy.
    rewrite (Hfirst j y Hj Hy) in Hmy. discriminate.
Qed.

Lemma get_server_certificate_None tbl hn ip :
  get_server_certificate tbl hn ip = None ↔
  ∀ e, e ∈ tbl → matches_identity hn ip e = false.
Proof.
  rewrite get_server_certificate_find, fmap_None, list_find_None.
  rewrite Forall_forall. split; intros H e He; specialize (H e He).
  - destruct (matches_identity hn ip e); [|done]. by destruct H.
  - rewrite H. intros [].
Qed.

(** C5.  [get_server_certificate] returns the index of the first entry, in
    insertion order, that matches the query under the rule of the design
    (absent hostname: entry without hostname and same address; present
    hostname: entry with the same hostname text and same address), and no
    entry exactly when none matches.  An absent-hostname query never matches
    an entry that has a hostname, and a present-hostname query never matches
    an entry without one, whatever the address. *)
Theorem get_server_certificate_first_match :
  ∀ (tbl : list server_certificate_t) (hn : option string) (ip : Z),
    (∀ i, get_server_certificate tbl hn ip = Some i ↔
       ∃ e, tbl !! i = Some e ∧ matches_identity hn ip e = true ∧
            ∀ j e', (j < i)%nat → tbl !! j = Some e' →
                    matches_identity hn ip e' = false) ∧
    (get_server_certificate tbl hn ip = None ↔
       ∀ e, e ∈ tbl → matches_identity hn ip e = false) ∧
    (∀ i e, get_server_certificate tbl hn ip = Some i →
       tbl !! i = Some e →
       ipv4_nbo e = ip ∧
       match hn with
       | None => hostname e = None
       | Some h => hostname e = Some h
       end) ∧
    (∀ e h, hostname e = Some h → matches_identity None ip e = false) ∧
    (∀ e h, hostname e = None → matches_identity (Some h) ip e = false).
Proof.
  intros tbl hn ip. split_and!.
  - intros i. apply get_server_certificate_Some.
  - apply get_server_certificate_None.
  - intros i e Hg Hl. apply get_server_certificate_Some in Hg
      as (e' & Hl' & Hm & _).
    assert (e' = e) as -> by congruence.
    unfold matches_identity in Hm.
    destruct hn as [h|], (hostname e) as [h'|]; try discriminate.
    + apply andb_true_iff in Hm as [Hh Hip].
      apply bool_decide_eq_true in Hh, Hip. by subst.
    + apply bool_decide_eq_true in Hm. done.
  - intros e h Hh. unfold matches_identity. by rewrite Hh.
  - intros e h Hh. unfold matches_identity. by rewrite Hh.
Qed.

(** ** The orchestrator, case by case *)

Ltac step_m :=
  unfold mbind, M_bind, mret, M_ret, gets, modify, emit, logmsg, log_cert;
  simpl.

(** The hostname an entry is filed under is the requested one when there
    is none to copy or the copy succeeds, and none when the copy fails. *)
Lemma strdup_copied w (hn : option string) :
  strdup_succeeds w → hn ≫= strdup w = hn.
Proof.
  intros Hw. destruct hn as [h|]; [|done]. simpl. unfold strdup.
  by rewrite Hw.
Qed.

Lemma strdup_cases w (hn : option string) :
  hn ≫= strdup w = hn ∨ hn ≫= strdup w = None.
Proof.
  destruct hn as [h|]; [|by left]. simpl. unfold strdup.
  destruct (strdup_ok w h); auto.
Qed.

Lemma lookup_snoc_last {A} (l : list A) (x : A) :
  (l ++ [x]) !! (length (l ++ [x]) - 1)%nat = Some x.
Proof.
  rewrite length_app. simpl.
  replace (length l + 1 - 1)%nat with (length l) by lia.
  apply list_lookup_middle. reflexivity.
Qed.

Section orchestrator.
Context (w : world) (opts : pgmopts_t).
Context (hn : option string) (ip : Z) (s : state).

Lemma forge_hit i e :
  get_server_certificate (server_certificates s) hn ip = Some i →
  server_certificates s !! i = Some e →
  forge_certificate_for_server w opts hn ip s
  = (Some (certificate e),
     set_x509_objs (up_ref (certificate e) (x509_objs s)) s).
Proof.
  intros Hg Hl. unfold forge_certificate_for_server, entry_certificate.
  step_m. rewrite Hg. step_m. rewrite Hl. reflexivity.
Qed.

Lemma forge_miss_create_fails :
  get_server_certificate (server_certificates s) hn ip = None →
  create_certificate_ok w (forge_certspec opts s hn ip) = false →
  forge_certificate_for_server w opts hn ip s
  = (None,
     set_trace (trace s ++
       [ Ev_logmsg LLVL_DEBUG (forging_message hn);
         Ev_create_certificate (forge_certspec opts s hn ip) None;
         Ev_logmsg LLVL_FATAL "Could not create server certificate." ]) s).
Proof.
  intros Hg Hc. unfold forge_certificate_for_server, forge_on_miss,
    openssl_create_certificate.
  step_m. rewrite Hg. step_m.
  change (forge_certspec opts _ hn ip) with (forge_certspec opts s hn ip).
  rewrite Hc. step_m. rewrite <- !app_assoc. reflexivity.
Qed.

Lemma forge_miss_realloc_fails :
  get_server_certificate (server_certificates s) hn ip = None →
  create_certificate_ok w (forge_certspec opts s hn ip) = true →
  realloc_ok w (length (server_certificates s) + 1)%nat = false →
  forge_certificate_for_server w opts hn ip s
  = (None,
     set_trace (trace s ++
       [ Ev_logmsg LLVL_DEBUG (forging_message hn);
         Ev_create_certificate (forge_certspec opts s hn ip)
           (Some (next_object s));
         Ev_logmsg LLVL_FATAL "Failed to realloc(3) server_certificates: %s";
         Ev_logmsg LLVL_ERROR
           "Failed to add server certificate for %s to database.";
         Ev_logmsg LLVL_FATAL "Could not create server certificate." ])
      (set_next_object (S (next_object s))
        (set_x509_objs
          (drop_ref (next_object s)
             (<[next_object s := 1%nat]> (x509_objs s))) s))).
Proof.
  intros Hg Hc Hr. unfold forge_certificate_for_server, forge_on_miss,
    openssl_create_certificate, new_x509.
  step_m. rewrite Hg. step_m.
  change (forge_certspec opts _ hn ip) with (forge_certspec opts s hn ip).
  rewrite Hc. step_m. unfold add_server_certificate, realloc. step_m.
  rewrite Hr. step_m. rewrite <- !app_assoc. reflexivity.
Qed.

Lemma forge_miss_inserted :
  get_server_certificate (server_certificates s) hn ip = None →
  create_certificate_ok w (forge_certspec opts s hn ip) = true →
  realloc_ok w (length (server_certificates s) + 1)%nat = true →
  forge_certificate_for_server w opts hn ip s
  = (Some (next_object s),
     set_trace (trace s ++
       Ev_logmsg LLVL_DEBUG (forging_message hn) ::
       Ev_create_certificate (forge_certspec opts s hn ip)
         (Some (next_object s)) ::
       (if log_dump_certificates opts
        then [ Ev_log_cert LLVL_DEBUG (Some (next_object s))
                 "Created forged server certificate" ]
        else []))
      (set_next_object (S (next_object s))
        (set_x509_objs
          (up_ref (next_object s)
             (<[next_object s := 1%nat]> (x509_objs s)))
          (set_server_certificates
             (server_certificates s ++
                [ {| hostname := hn ≫= strdup w; ipv4_nbo := ip;
                     certificate := next_object s |} ]) s)))).
Proof.
  intros Hg Hc Hr. unfold forge_certificate_for_server, forge_on_miss,
    openssl_create_certificate, new_x509.
  step_m. rewrite Hg. step_m.
  change (forge_certspec opts _ hn ip) with (forge_certspec opts s hn ip).
  rewrite Hc. step_m. unfold add_server_certificate, realloc. step_m.
  rewrite Hr. step_m. unfold entry_certificate.
  destruct (log_dump_certificates opts); step_m;
    rewrite !lookup_snoc_last; step_m; rewrite <- !app_assoc; reflexivity.
Qed.

End orchestrator.

(** ** Start-up, block by block *)

Lemma fill_pgmopts_keyspec_eq opts d s :
  fill_pgmopts_keyspec opts (keyspec_init d) s
  = (keyspec_for opts d, set_trace (trace s ++ keytype_events opts) s).
Proof.
  unfold keyspec_for, keytype_events, fill_pgmopts_keyspec.
  destruct (keyspec_keytype opts); step_m; rewrite ?app_nil_r;
    by destruct s.
Qed.

Ltac key_block :=
  intros; unfold init_root_key, init_server_key, init_client_key;
  unfold mbind, M_bind at 1; rewrite fill_pgmopts_keyspec_eq;
  unfold get_root_key_filename, get_server_key_filename,
    get_client_key_filename;
  match goal with
  | |- context [get_config_filename ?w ?o ?x] =>
      destruct (get_config_filename w o x) as [f|]
  end;
  [ unfold openssl_load_stored_key, new_pkey;
    match goal with
    | |- context [load_stored_key_ok ?w ?k ?f] =>
        destruct (load_stored_key_ok w k f)
    end |];
  step_m; rewrite <- ?app_assoc; reflexivity.

Lemma init_root_key_eq w opts s :
  init_root_key w opts s =
  match get_root_key_filename w opts with
  | None =>
      (false,
       set_trace (trace s ++ keytype_events opts ++
         [Ev_logmsg LLVL_FATAL "Could not get root CA private key filename."])
         s)
  | Some f =>
      if load_stored_key_ok w (keyspec_for opts "root") f
      then
        (true,
         set_trace (trace s ++ keytype_events opts ++
           [Ev_load_stored_key (keyspec_for opts "root") f
              (Some (next_object s))])
           (set_root_ca_key (Some (next_object s))
             (set_next_object (S (next_object s))
               (set_pkey_objs (<[next_object s := 1%nat]> (pkey_objs s))
                  s))))
      else
        (false,
         set_trace (trace s ++ keytype_events opts ++
           [Ev_load_stored_key (keyspec_for opts "root") f None;
            Ev_logmsg LLVL_FATAL
              "Unable to load or create root CA private keypair."])
           (set_root_ca_key None s))
  end.
Proof. key_block. Qed.

Lemma init_server_key_eq w opts s :
  init_server_key w opts s =
  match get_server_key_filename w opts with
  | None =>
      (false,
       set_trace (trace s ++ keytype_events opts ++
         [Ev_logmsg LLVL_FATAL "Could not get server private key filename."])
         s)
  | Some f =>
      if load_stored_key_ok w (keyspec_for opts "TLS server") f
      then
        (true,
         set_trace (trace s ++ keytype_events opts ++
           [Ev_load_stored_key (keyspec_for opts "TLS server") f
              (Some (next_object s))])
           (set_server_key (Some (next_object s))
             (set_next_object (S (next_object s))
               (set_pkey_objs (<[next_object s := 1%nat]> (pkey_objs s))
                  s))))
      else
        (false,
         set_trace (trace s ++ keytype_events opts ++
           [Ev_load_stored_key (keyspec_for opts "TLS server") f None;
            Ev_logmsg LLVL_FATAL
              "Unable to load or create server private keypair."])
           (set_server_key None s))
  end.
Proof. key_block. Qed.

Lemma init_client_key_eq w opts s :
  init_client_key w opts s =
  match get_client_key_filename w opts with
  | None =>
      (false,
       set_trace (trace s ++ keytype_events opts ++
         [Ev_logmsg LLVL_FATAL "Could not get client private key filename."])
         s)
  | Some f =>
      if load_stored_key_ok w (keyspec_for opts "TLS client") f
      then
        (true,
         set_trace (trace s ++ keytype_events opts ++
           [Ev_load_stored_key (keyspec_for opts "TLS client") f
              (Some (next_object s))])
           (set_client_key (Some (next_object s))
             (set_next_object (S (next_object s))
               (set_pkey_objs (<[next_object s := 1%nat]> (pkey_objs s))
                  s))))
      else
        (false,
         set_trace (trace s ++ keytype_events opts ++
           [Ev_load_stored_key (keyspec_for opts "TLS client") f None;
            Ev_logmsg LLVL_FATAL
              "Unable to load or create client private keypair."])
           (set_client_key None s))
  end.
Proof. key_block. Qed.

Lemma init_root_ca_eq w opts s :
  init_root_ca w opts s =
  match get_root_ca_filename w opts with
  | None =>
      (false,
       set_trace (trace s ++
         [Ev_logmsg LLVL_FATAL "Could not get root CA filename."]) s)
  | Some f =>
      if load_stored_certificate_ok w (root_certspec opts s) f true true
      then
        (true,
         set_trace (trace s ++
           [Ev_load_stored_certificate (root_certspec opts s) f true true
              (Some (next_object s));
            Ev_log_cert LLVL_DEBUG (Some (next_object s))
              "Used root certificate"])
           (set_root_ca (Some (next_object s))
             (set_next_object (S (next_object s))
               (set_x509_objs (<[next_object s := 1%nat]> (x509_objs s))
                  s))))
      else
        (true,
         set_trace (trace s ++
           [Ev_load_stored_certificate (root_certspec opts s) f true true
              None;
            Ev_log_cert LLVL_DEBUG None "Used root certificate"])
           (set_root_ca None s))
  end.
Proof.
  unfold init_root_ca, get_root_ca_filename.
  destruct (get_config_filename w opts "root.crt") as [f|]; step_m;
    [|reflexivity].
  unfold openssl_load_stored_certificate, new_x509. step_m.
  destruct (load_stored_certificate_ok w (root_certspec opts s) f true true);
    step_m; rewrite <- ?app_assoc; reflexivity.
Qed.

Lemma certforgery_init_unfold w opts s :
  certforgery_init w opts s =
  let s0 := set_trace (trace s ++ [Ev_makedirs (config_dir opts)]) s in
  let r1 := init_root_key w opts s0 in
  if r1.1 then
    let r2 := init_server_key w opts r1.2 in
    if r2.1 then
      let r3 := init_client_key w opts r2.2 in
      if r3.1 then init_root_ca w opts r3.2 else (false, r3.2)
    else (false, r2.2)
  else (false, r1.2).
Proof.
  unfold certforgery_init, makedirs. step_m.
  destruct (init_root_key w opts _) as [[] s1]; simpl; [|reflexivity].
  destruct (init_server_key w opts s1) as [[] s2]; simpl; [|reflexivity].
  destruct (init_client_key w opts s2) as [[] s3]; simpl; reflexivity.
Qed.

(** Every way through [certforgery_init]: eight leaves. *)
Ltac init_cases w opts :=
  rewrite certforgery_init_unfold; cbv zeta;
  rewrite init_root_key_eq;
  destruct (get_root_key_filename w opts) as [?f|] eqn:?Hname;
    [destruct (load_stored_key_ok w (keyspec_for opts "root") _) eqn:?Hload|];
  simpl;
  try (rewrite init_server_key_eq;
    destruct (get_server_key_filename w opts) as [?f|] eqn:?Hname;
      [destruct (load_stored_key_ok w (keyspec_for opts "TLS server") _)
         eqn:?Hload|];
    simpl;
    try (rewrite init_client_key_eq;
      destruct (get_client_key_filename w opts) as [?f|] eqn:?Hname;
        [destruct (load_stored_key_ok w (keyspec_for opts "TLS client") _)
           eqn:?Hload|];
      simpl;
      try (rewrite init_root_ca_eq;
        destruct (get_root_ca_filename w opts) as [?f|] eqn:?Hname;
          [destruct (load_stored_certificate_ok w _ _ true true) eqn:?Hcert|];
        simpl))).

Lemma certforgery_init_cache w opts s :
  server_certificates (certforgery_init w opts s).2 = server_certificates s.
Proof. init_cases w opts; reflexivity. Qed.

(** ** One entry per identity *)

Lemma matches_identity_true hn ip e :
  matches_identity hn ip e = true ↔ hostname e = hn ∧ ipv4_nbo e = ip.
Proof.
  unfold matches_identity.
  destruct hn as [h|], (hostname e) as [h'|];
    rewrite ?andb_true_iff, ?bool_decide_eq_true; intuition congruence.
Qed.

Lemma at_most_one_snoc tbl e :
  at_most_one_per_identity tbl →
  (∀ e', e' ∈ tbl → matches_identity (hostname e) (ipv4_nbo e) e' = false) →
  at_most_one_per_identity (tbl ++ [e]).
Proof.
  intros Huniq Hnew i j e1 e2 H1 H2 Hh Hip.
  assert (∀ e', e' ∈ tbl →
            ¬ (hostname e' = hostname e ∧ ipv4_nbo e' = ipv4_nbo e)) as Hno.
  { intros e' He' Hm. apply matches_identity_true in Hm.
    rewrite (Hnew e' He') in Hm. discriminate. }
  apply lookup_app_Some in H1 as [H1|[Hi H1]];
    apply lookup_app_Some in H2 as [H2|[Hj H2]].
  - eauto.
  - apply list_lookup_singleton_Some in H2 as [_ <-].
    destruct (Hno e1); [by eapply list_elem_of_lookup_2|done].
  - apply list_lookup_singleton_Some in H1 as [_ <-].
    destruct (Hno e2); [by eapply list_elem_of_lookup_2|done].
  - apply list_lookup_singleton_Some in H1 as [? _].
    apply list_lookup_singleton_Some in H2 as [? _]. lia.
Qed.

Lemma get_server_certificate_entry tbl hn ip i :
  get_server_certificate tbl hn ip = Some i →
  ∃ e, tbl !! i = Some e ∧ hostname e = hn ∧ ipv4_nbo e = ip.
Proof.
  intros (e & Hl & Hm & _)%get_server_certificate_Some.
  apply matches_identity_true in Hm. eauto.
Qed.

(** A call of the orchestrator leaves the table alone or, after a lookup
    that found nothing, appends one entry. *)
Lemma forge_cache_cases w opts hn ip s :
  let r := forge_certificate_for_server w opts hn ip s in
  server_certificates r.2 = server_certificates s ∨
  (get_server_certificate (server_certificates s) hn ip = None ∧
   ∃ c, r.1 = Some c ∧
     server_certificates r.2
     = server_certificates s ++
         [ {| hostname := hn ≫= strdup w; ipv4_nbo := ip;
              certificate := c |} ]).
Proof.
  destruct (get_server_certificate (server_certificates s) hn ip)
    as [i|] eqn:Hg.
  - destruct (get_server_certificate_entry _ _ _ _ Hg) as (e & Hl & _).
    rewrite (forge_hit _ _ _ _ _ _ _ Hg Hl). by left.
  - destruct (create_certificate_ok w (forge_certspec opts s hn ip)) eqn:Hc.
    + destruct (realloc_ok w (length (server_certificates s) + 1)%nat)
        eqn:Hr.
      * rewrite (forge_miss_inserted _ _ _ _ _ Hg Hc Hr). right. eauto.
      * rewrite (forge_miss_realloc_fails _ _ _ _ _ Hg Hc Hr). by left.
    + rewrite (forge_miss_create_fails _ _ _ _ _ Hg Hc). by left.
Qed.

Lemma getters_and_deinit_cache s :
  server_certificates (get_forged_root_certificate s).2
    = server_certificates s ∧
  server_certificates (get_forged_root_key s).2 = server_certificates s ∧
  server_certificates (get_tls_server_key s).2 = server_certificates s ∧
  server_certificates (get_tls_client_key s).2 = server_certificates s ∧
  server_certificates (certforgery_deinit s).2 = server_certificates s.
Proof.
  unfold get_forged_root_certificate, get_forged_root_key,
    get_tls_server_key, get_tls_client_key, certforgery_deinit.
  destruct s as [[c|] [k1|] [k2|] [k3|] tbl xo po no tr]; step_m; done.
Qed.

Lemma exec_later_cache_cases w opts c s :
  server_certificates (exec_later w opts c s) = server_certificates s ∨
  ∃ hn ip cert,
    get_server_certificate (server_certificates s) hn ip = None ∧
    server_certificates (exec_later w opts c s)
    = server_certificates s ++
        [ {| hostname := hn ≫= strdup w; ipv4_nbo := ip;
             certificate := cert |} ].
Proof.
  destruct (getters_and_deinit_cache s) as (? & ? & ? & ? & ?).
  destruct c as [hn ip| | | | |]; simpl; auto.
  destruct (forge_cache_cases w opts hn ip s) as [?|(? & c & _ & ?)];
    [by left|right; eauto].
Qed.

(** *** Runs

    A run makes its calls one after the other and stops at the first call
    that ends the process. *)

Lemma run_later_cons opts w c calls s :
  run_later opts ((w, c) :: calls) s
  = run_later opts calls (if crashed s then s else exec_later w opts c s).
Proof. reflexivity. Qed.

Lemma run_cons opts w c calls s :
  run opts ((w, c) :: calls) s
  = run opts calls (if crashed s then s else exec w opts c s).
Proof. reflexivity. Qed.

Lemma run_later_crashed opts calls s :
  crashed s = true → run_later opts calls s = s.
Proof.
  intros Hc. induction calls as [|[w c] calls IH]; [done|].
  by rewrite run_later_cons, Hc.
Qed.

Lemma run_crashed opts calls s :
  crashed s = true → run opts calls s = s.
Proof.
  intros Hc. induction calls as [|[w c] calls IH]; [done|].
  by rewrite run_cons, Hc.
Qed.

(** What every call made in a world of [good] preserves, a run of such
    calls preserves. *)
Lemma run_later_preserves (good : world → Prop) (P : state → Prop) opts :
  (∀ w c s, good w → P s → P (exec_later w opts c s)) →
  ∀ calls s, Forall (λ wc, good wc.1) calls →
    P s → P (run_later opts calls s).
Proof.
  intros Hstep calls. induction calls as [|[w c] calls IH];
    intros s Hgood HP; [done|].
  apply Forall_cons in Hgood as [Hw Hgood].
  rewrite run_later_cons. apply IH; [done|].
  destruct (crashed s); [done|]. by apply Hstep.
Qed.

Lemma run_preserves (good : world → Prop) (P : state → Prop) opts :
  (∀ w c s, good w → P s → P (exec w opts c s)) →
  ∀ calls s, Forall (λ wc, good wc.1) calls → P s → P (run opts calls s).
Proof.
  intros Hstep calls. induction calls as [|[w c] calls IH];
    intros s Hgood HP; [done|].
  apply Forall_cons in Hgood as [Hw Hgood].
  rewrite run_cons. apply IH; [done|].
  destruct (crashed s); [done|]. by apply Hstep.
Qed.

Lemma Forall_any_world {A} (calls : list (world * A)) :
  Forall (λ wc, (λ _ : world, True) wc.1) calls.
Proof. by apply Forall_forall. Qed.

Lemma run_later_invariant (P : state → Prop) opts :
  (∀ w c s, P s → P (exec_later w opts c s)) →
  ∀ calls s, P s → P (run_later opts calls s).
Proof.
  intros Hstep calls s. apply (run_later_preserves (λ _, True)); [auto|].
  apply Forall_any_world.
Qed.

Lemma run_invariant (P : state → Prop) opts :
  (∀ w c s, P s → P (exec w opts c s)) →
  ∀ calls s, P s → P (run opts calls s).
Proof.
  intros Hstep calls s. apply (run_preserves (λ _, True)); [auto|].
  apply Forall_any_world.
Qed.

Lemma exec_preserves_at_most_one w opts c s :
  strdup_succeeds w →
  at_most_one_per_identity (server_certificates s) →
  at_most_one_per_identity (server_certificates (exec w opts c s)).
Proof.
  intros Hw Huniq. destruct c as [|c]; simpl.
  - by rewrite certforgery_init_cache.
  - destruct (exec_later_cache_cases w opts c s)
      as [->|(hn & ip & cert & Hg & ->)]; [done|].
    rewrite (strdup_copied _ _ Hw).
    apply at_most_one_snoc; [done|]. simpl.
    by apply get_server_certificate_None.
Qed.

Lemma run_preserves_at_most_one opts calls s :
  Forall (λ wc, strdup_succeeds wc.1) calls →
  at_most_one_per_identity (server_certificates s) →
  at_most_one_per_identity (server_certificates (run opts calls s)).
Proof.
  intros Hgood Huniq.
  apply (run_preserves strdup_succeeds
           (λ s, at_most_one_per_identity (server_certificates s)));
    [|done|done].
  intros w c s'. apply exec_preserves_at_most_one.
Qed.

(** C1.  The orchestrator does not check the result of [strdup]: when the
    copy of the hostname fails, the new entry is filed without a hostname.
    Two requests for the same hostname and address, made after a successful
    start while hostnames cannot be copied, each construct a certificate and
    each append an entry; the table then holds two entries with no hostname
    and the same address.  The growth of the table two lines earlier is
    checked. *)
Theorem cache_duplicate_entries_after_failed_strdup :
  let calls :=
    [ (world_ok, Call_certforgery_init);
      (world_no_strdup,
       Call_later
         (Call_forge_certificate_for_server (Some "a.com") ip_10_0_0_1));
      (world_no_strdup,
       Call_later
         (Call_forge_certificate_for_server (Some "a.com") ip_10_0_0_1)) ] in
  let s := run opts_example calls initial_state in
  crashed s = false ∧
  server_certificates s
  = [ {| hostname := None; ipv4_nbo := ip_10_0_0_1;
         certificate := 4%nat |};
      {| hostname := None; ipv4_nbo := ip_10_0_0_1;
         certificate := 5%nat |} ] ∧
  ¬ at_most_one_per_identity (server_certificates s).
Proof.
  assert (server_certificates
            (run opts_example
               [ (world_ok, Call_certforgery_init);
                 (world_no_strdup,
                  Call_later
                    (Call_forge_certificate_for_server (Some "a.com")
                       ip_10_0_0_1));
                 (world_no_strdup,
                  Call_later
                    (Call_forge_certificate_for_server (Some "a.com")
                       ip_10_0_0_1)) ]
               initial_state)
          = [ {| hostname := None; ipv4_nbo := ip_10_0_0_1;
                 certificate := 4%nat |};
              {| hostname := None; ipv4_nbo := ip_10_0_0_1;
                 certificate := 5%nat |} ]) as Htbl
    by (vm_compute; reflexivity).
  cbv zeta. split_and!; [by vm_compute|exact Htbl|].
  rewrite Htbl. intros Huniq.
  specialize (Huniq 0%nat 1%nat _ _ eq_refl eq_refl eq_refl eq_refl).
  discriminate Huniq.
Qed.

(** ** Reuse of a cached certificate *)

Lemma cached_as_app hn ip c tbl more :
  cached_as hn ip c tbl → cached_as hn ip c (tbl ++ more).
Proof.
  intros (i & e & Hg & Hl & Hc). exists i, e. split_and!; [|by apply
    lookup_app_l_Some|done].
  rewrite get_server_certificate_find in Hg |- *.
  destruct (list_find _ tbl) as [[j y]|] eqn:Hf; [|discriminate].
  by rewrite (list_find_app_l _ _ more _ _ Hf).
Qed.

Lemma get_server_certificate_snoc tbl hn ip c :
  get_server_certificate tbl hn ip = None →
  get_server_certificate
    (tbl ++ [ {| hostname := hn; ipv4_nbo := ip; certificate := c |} ])
    hn ip = Some (length tbl).
Proof.
  intros Hnone. apply get_server_certificate_Some.
  eexists. split_and!.
  - by apply list_lookup_middle.
  - by apply matches_identity_true.
  - intros j e' Hj He'. rewrite lookup_app_l in He' by done.
    eapply get_server_certificate_None; [done|].
    by eapply list_elem_of_lookup_2.
Qed.

(** A successful call leaves the certificate it returned in the table. *)
Lemma forge_success_in_table w opts hn ip s c :
  (forge_certificate_for_server w opts hn ip s).1 = Some c →
  ∃ i e,
    server_certificates (forge_certificate_for_server w opts hn ip s).2 !! i
      = Some e ∧
    certificate e = c.
Proof.
  destruct (get_server_certificate (server_certificates s) hn ip)
    as [i|] eqn:Hg.
  - destruct (get_server_certificate_entry _ _ _ _ Hg) as (e & Hl & _).
    rewrite (forge_hit _ _ _ _ _ _ _ Hg Hl). simpl. intros [= <-].
    by exists i, e.
  - destruct (create_certificate_ok w (forge_certspec opts s hn ip)) eqn:Hc.
    + destruct (realloc_ok w (length (server_certificates s) + 1)%nat)
        eqn:Hr.
      * rewrite (forge_miss_inserted _ _ _ _ _ Hg Hc Hr). simpl.
        intros [= <-]. eexists _, _. split; [by apply list_lookup_middle|].
        done.
      * by rewrite (forge_miss_realloc_fails _ _ _ _ _ Hg Hc Hr).
    + by rewrite (forge_miss_create_fails _ _ _ _ _ Hg Hc).
Qed.

(** When the hostname was copied (or there was none to copy), a lookup for
    the same identity finds the certificate a successful call returned. *)
Lemma forge_success_cached w opts hn ip s c :
  hn ≫= strdup w = hn →
  (forge_certificate_for_server w opts hn ip s).1 = Some c →
  cached_as hn ip c
    (server_certificates (forge_certificate_for_server w opts hn ip s).2).
Proof.
  intros Hcopy.
  destruct (get_server_certificate (server_certificates s) hn ip)
    as [i|] eqn:Hg.
  - destruct (get_server_certificate_entry _ _ _ _ Hg) as (e & Hl & _).
    rewrite (forge_hit _ _ _ _ _ _ _ Hg Hl). simpl. intros [= <-].
    by exists i, e.
  - destruct (create_certificate_ok w (forge_certspec opts s hn ip)) eqn:Hc.
    + destruct (realloc_ok w (length (server_certificates s) + 1)%nat)
        eqn:Hr.
      * rewrite (forge_miss_inserted _ _ _ _ _ Hg Hc Hr). simpl.
        rewrite Hcopy. intros [= <-]. eexists _, _. split_and!.
        -- by apply get_server_certificate_snoc.
        -- by apply list_lookup_middle.
        -- done.
      * by rewrite (forge_miss_realloc_fails _ _ _ _ _ Hg Hc Hr).
    + by rewrite (forge_miss_create_fails _ _ _ _ _ Hg Hc).
Qed.

Lemma run_later_cached opts calls hn ip c s :
  cached_as hn ip c (server_certificates s) →
  cached_as hn ip c (server_certificates (run_later opts calls s)).
Proof.
  revert s.
  apply (run_later_invariant
           (λ s, cached_as hn ip c (server_certificates s))).
  intros w call s Hc.
  destruct (exec_later_cache_cases w opts call s)
    as [->|(? & ? & ? & _ & ->)]; [done|by apply cached_as_app].
Qed.

(** C2.  The entry of a new certificate is filed under the result of
    [strdup], which the orchestrator does not check.  A first call for
    ["a.com"] at 10.0.0.1, made after a successful start while the hostname
    cannot be copied, succeeds with certificate 4 and files it without a
    hostname.  A second call for the same pair, in which nothing fails, does
    not find that entry: it constructs certificate 5, appends a second entry
    and returns a different object. *)
Theorem forge_twice_constructs_again_after_failed_strdup :
  let r1 := forge_certificate_for_server world_no_strdup opts_example
              (Some "a.com") ip_10_0_0_1 started in
  let r2 := forge_certificate_for_server world_ok opts_example
              (Some "a.com") ip_10_0_0_1 r1.2 in
  r1.1 = Some 4%nat ∧
  r2.1 = Some 5%nat ∧
  server_certificates r1.2
  = [ {| hostname := None; ipv4_nbo := ip_10_0_0_1;
         certificate := 4%nat |} ] ∧
  server_certificates r2.2
  = [ {| hostname := None; ipv4_nbo := ip_10_0_0_1;
         certificate := 4%nat |};
      {| hostname := Some "a.com"; ipv4_nbo := ip_10_0_0_1;
         certificate := 5%nat |} ] ∧
  get_server_certificate (server_certificates r1.2)
    (Some "a.com") ip_10_0_0_1 = None ∧
  next_object r1.2 = 5%nat ∧
  next_object r2.2 = 6%nat ∧
  Ev_create_certificate
    (forge_certspec opts_example r1.2 (Some "a.com") ip_10_0_0_1)
    (Some 5%nat)
    ∈ drop (length (trace r1.2)) (trace r2.2) ∧
  crashed r2.2 = false.
Proof.
  cbv zeta. split_and!; try (vm_compute; reflexivity).
  apply list_elem_of_In. vm_compute. auto.
Qed.

(** ** The specification of a forged certificate *)

Lemma string_length_append (a b : string) :
  String.length (a +:+ b) = (String.length a + String.length b)%nat.
Proof. induction a as [|ch a IH]; simpl; [done|by rewrite IH]. Qed.

Lemma substring_whole (n : nat) (s : string) :
  (String.length s ≤ n)%nat → substring 0 n s = s.
Proof.
  revert n. induction s as [|ch s IH]; intros [|n] Hn; simpl in *;
    try done; try lia.
  rewrite IH by lia. done.
Qed.

Lemma print_d_octet_length n :
  0 ≤ n < 256 → (String.length (print_d n) ≤ 3)%nat.
Proof.
  intros Hn.
  assert (forallb (λ k, (String.length (print_d (Z.of_nat k)) <=? 3)%nat)
            (seq 0 256) = true) as Hall by (vm_compute; reflexivity).
  rewrite forallb_forall in Hall.
  specialize (Hall (Z.to_nat n)). rewrite Z2Nat.id in Hall by lia.
  apply Nat.leb_le, Hall, in_seq. lia.
Qed.

Lemma octet_range x k : 0 ≤ Z.land (Z.shiftr x k) 255 < 256.
Proof.
  change 255 with (Z.ones 8). rewrite Z.land_ones by lia.
  apply Z.mod_pos_bound. lia.
Qed.

Lemma dotted_decimal_length ip :
  (String.length (PRI_IPv4 (FMT_IPv4 ip)) ≤ 15)%nat.
Proof.
  unfold PRI_IPv4, FMT_IPv4. cbn [map String.concat].
  rewrite !string_length_append. cbn [String.length].
  pose proof (print_d_octet_length _ (octet_range ip 0)).
  pose proof (print_d_octet_length _ (octet_range ip 8)).
  pose proof (print_d_octet_length _ (octet_range ip 16)).
  pose proof (print_d_octet_length _ (octet_range ip 24)).
  lia.
Qed.

(** The sixteen bytes of the buffer always suffice. *)
Lemma snprintf_dotted_decimal ip :
  snprintf 16 (PRI_IPv4 (FMT_IPv4 ip)) = PRI_IPv4 (FMT_IPv4 ip).
Proof. apply substring_whole, dotted_decimal_length. Qed.

Lemma print_d_octet_decimal n : 0 ≤ n < 256 → print_d n = decimal n.
Proof.
  intros Hn.
  assert (forallb (λ k, bool_decide
                          (print_d (Z.of_nat k) = decimal (Z.of_nat k)))
            (seq 0 256) = true) as Hall by (vm_compute; reflexivity).
  rewrite forallb_forall in Hall.
  specialize (Hall (Z.to_nat n)). rewrite Z2Nat.id in Hall by lia.
  eapply bool_decide_eq_true_1, Hall, in_seq. lia.
Qed.

Lemma FMT_IPv4_octets ip :
  FMT_IPv4 ip = [octet ip 0; octet ip 1; octet ip 2; octet ip 3].
Proof.
  unfold FMT_IPv4, octet. change 255 with (Z.ones 8).
  rewrite !Z.land_ones, !Z.shiftr_div_pow2 by lia. reflexivity.
Qed.

Lemma octet_bounds ip k : 0 ≤ octet ip k < 256.
Proof. unfold octet. apply Z.mod_pos_bound. lia. Qed.

(** What the macros print is the dotted-decimal text of the design. *)
Lemma PRI_IPv4_dotted_decimal ip :
  PRI_IPv4 (FMT_IPv4 ip) = dotted_decimal ip.
Proof.
  rewrite FMT_IPv4_octets. unfold PRI_IPv4, dotted_decimal.
  cbn [map String.concat].
  by rewrite !print_d_octet_decimal by apply octet_bounds.
Qed.

Example dotted_decimal_192_0_2_5 :
  PRI_IPv4 (FMT_IPv4 ip_192_0_2_5) = "192.0.2.5" ∧
  dotted_decimal ip_192_0_2_5 = "192.0.2.5".
Proof. split; reflexivity. Qed.

(** Membership of an event in an explicit list of other events. *)
Ltac elim_in :=
  repeat match goal with
  | H : _ ∈ [] |- _ => by apply elem_of_nil in H
  | H : _ ∈ _ :: _ |- _ =>
      apply elem_of_cons in H as [H|H]; [try discriminate H|]
  end.

Lemma forge_miss_trace w opts hn ip s :
  get_server_certificate (server_certificates s) hn ip = None →
  ∃ res rest,
    trace (forge_certificate_for_server w opts hn ip s).2
    = trace s ++
        Ev_logmsg LLVL_DEBUG (forging_message hn) ::
        Ev_create_certificate (forge_certspec opts s hn ip) res :: rest.
Proof.
  intros Hg.
  destruct (create_certificate_ok w (forge_certspec opts s hn ip)) eqn:Hc.
  - destruct (realloc_ok w (length (server_certificates s) + 1)%nat) eqn:Hr.
    + rewrite (forge_miss_inserted _ _ _ _ _ Hg Hc Hr). simpl. eauto.
    + rewrite (forge_miss_realloc_fails _ _ _ _ _ Hg Hc Hr). simpl. eauto.
  - rewrite (forge_miss_create_fails _ _ _ _ _ Hg Hc). simpl. eauto.
Qed.

(** C6.  On a cache miss [forge_certificate_for_server] hands exactly one
    specification to the construction primitive.  With a hostname, its DNS
    subject-alternative name and its common name are that hostname; without
    one, its common name is the dotted-decimal text of the address (never
    cut short by the 16-byte buffer) and it has no DNS subject-alternative
    name.  Its IPv4 subject-alternative address is the given address in
    both cases. *)
Theorem forge_certspec_names :
  ∀ (w : world) (opts : pgmopts_t) (hn : option string) (ip : Z)
    (s : state),
    get_server_certificate (server_certificates s) hn ip = None →
    let spec := forge_certspec opts s hn ip in
    (∃ res rest,
       trace (forge_certificate_for_server w opts hn ip s).2
       = trace s ++
           Ev_logmsg LLVL_DEBUG (forging_message hn) ::
           Ev_create_certificate spec res :: rest ∧
       ∀ spec' res', Ev_create_certificate spec' res' ∈ rest → False) ∧
    match hn with
    | Some h =>
        subject_alternative_dns_hostname spec = Some h ∧
        common_name spec = Some h
    | None =>
        common_name spec = Some (dotted_decimal ip) ∧
        subject_alternative_dns_hostname spec = None
    end ∧
    subject_alternative_ipv4_address spec = ip.
Proof.
  intros w opts hn ip s Hg spec. split_and!.
  - destruct (create_certificate_ok w (forge_certspec opts s hn ip)) eqn:Hc.
    + destruct (realloc_ok w (length (server_certificates s) + 1)%nat)
        eqn:Hr.
      * rewrite (forge_miss_inserted _ _ _ _ _ Hg Hc Hr). simpl.
        eexists _, _. split; [reflexivity|].
        intros spec' res' Hin. destruct (log_dump_certificates opts);
          elim_in.
      * rewrite (forge_miss_realloc_fails _ _ _ _ _ Hg Hc Hr). simpl.
        eexists _, _. split; [reflexivity|]. intros spec' res' Hin. elim_in.
    + rewrite (forge_miss_create_fails _ _ _ _ _ Hg Hc). simpl.
      eexists _, _. split; [reflexivity|]. intros spec' res' Hin. elim_in.
  - subst spec. unfold forge_certspec. destruct hn as [h|]; simpl; [done|].
    by rewrite snprintf_dotted_decimal, PRI_IPv4_dotted_decimal.
  - subst spec. unfold forge_certspec. by destruct hn.
Qed.

Lemma forge_certspec_names_witness :
  get_server_certificate (server_certificates started) None ip_192_0_2_5
    = None ∧
  common_name (forge_certspec opts_example started None ip_192_0_2_5)
    = Some "192.0.2.5" ∧
  subject_alternative_dns_hostname
    (forge_certspec opts_example started None ip_192_0_2_5) = None ∧
  subject_alternative_ipv4_address
    (forge_certspec opts_example started None ip_192_0_2_5) = ip_192_0_2_5.
Proof.
  assert (get_server_certificate (server_certificates started) None
            ip_192_0_2_5 = None) as Hmiss by reflexivity.
  pose proof (forge_certspec_names world_ok opts_example None ip_192_0_2_5
                started Hmiss) as (_ & [Hcn Hdns] & Hip).
  split_and!; [exact Hmiss|exact Hcn|exact Hdns|exact Hip].
Defined.

(** ** Failure of construction or insertion *)

Lemma drop_only_reference (c : nat) (h : gmap nat nat) :
  drop_ref c (<[c := 1%nat]> h) = delete c (<[c := 1%nat]> h).
Proof. unfold drop_ref. by rewrite lookup_insert_eq. Qed.

(** C7.  On a cache miss: if the construction primitive fails, the call
    returns no certificate and the table is unchanged; if construction
    succeeds (the new object is [next_object s], created with one reference)
    but the table cannot grow, the call returns no certificate, the table is
    unchanged and the new object is gone from the heap, its single reference
    having been dropped.  Whatever happens, a certificate that the call
    returns is the certificate of an entry of the table. *)
Theorem forge_failure_returns_nothing :
  ∀ (w : world) (opts : pgmopts_t) (hn : option string) (ip : Z)
    (s : state),
    let spec := forge_certspec opts s hn ip in
    let r := forge_certificate_for_server w opts hn ip s in
    (get_server_certificate (server_certificates s) hn ip = None →
     create_certificate_ok w spec = false →
     r.1 = None ∧ server_certificates r.2 = server_certificates s ∧
     x509_objs r.2 = x509_objs s) ∧
    (get_server_certificate (server_certificates s) hn ip = None →
     create_certificate_ok w spec = true →
     realloc_ok w (length (server_certificates s) + 1)%nat = false →
     r.1 = None ∧ server_certificates r.2 = server_certificates s ∧
     Ev_create_certificate spec (Some (next_object s)) ∈ trace r.2 ∧
     x509_objs r.2
     = delete (next_object s) (<[next_object s := 1%nat]> (x509_objs s)) ∧
     x509_objs r.2 !! next_object s = None) ∧
    (∀ c, r.1 = Some c →
       ∃ e, e ∈ server_certificates r.2 ∧ certificate e = c).
Proof.
  intros w opts hn ip s spec r. subst spec r. split_and!.
  - intros Hg Hc. by rewrite (forge_miss_create_fails _ _ _ _ _ Hg Hc).
  - intros Hg Hc Hr. rewrite (forge_miss_realloc_fails _ _ _ _ _ Hg Hc Hr).
    simpl. rewrite drop_only_reference, lookup_delete_eq. split_and!; try done.
    apply elem_of_app. right. apply elem_of_cons. right.
    apply list_elem_of_here.
  - intros c Hres. apply forge_success_in_table in Hres as (i & e & Hl & ?).
    exists e. split; [by eapply list_elem_of_lookup_2|done].
Qed.

(** The miss path, when construction fails and when the table cannot
    grow. *)
Lemma forge_failure_returns_nothing_witness :
  (forge_certificate_for_server world_no_certificate opts_example None
     ip_10_0_0_1 started).1 = None ∧
  (forge_certificate_for_server world_no_memory opts_example None
     ip_10_0_0_1 started).1 = None ∧
  x509_objs
    (forge_certificate_for_server world_no_memory opts_example None
       ip_10_0_0_1 started).2 !! next_object started = None.
Proof.
  pose proof (forge_failure_returns_nothing world_no_certificate
                opts_example None ip_10_0_0_1 started) as (Hcreate & _ & _).
  pose proof (forge_failure_returns_nothing world_no_memory
                opts_example None ip_10_0_0_1 started) as (_ & Hgrow & _).
  destruct (Hcreate eq_refl eq_refl) as (Hres1 & _).
  destruct (Hgrow eq_refl eq_refl eq_refl) as (Hres2 & _ & _ & _ & Hgone).
  split_and!; [exact Hres1|exact Hres2|exact Hgone].
Defined.

(** ** Handles and issuer *)

(** A call of the orchestrator leaves the four handles alone, and the only
    specification it may hand out is [forge_certspec]. *)
Lemma forge_frame w opts hn ip s :
  let s' := (forge_certificate_for_server w opts hn ip s).2 in
  (root_ca s' = root_ca s ∧ root_ca_key s' = root_ca_key s ∧
   server_key s' = server_key s ∧ client_key s' = client_key s) ∧
  ∃ evs, trace s' = trace s ++ evs ∧
    ∀ spec res, Ev_create_certificate spec res ∈ evs →
      spec = forge_certspec opts s hn ip.
Proof.
  destruct (get_server_certificate (server_certificates s) hn ip)
    as [i|] eqn:Hg.
  - destruct (get_server_certificate_entry _ _ _ _ Hg) as (e & Hl & _).
    rewrite (forge_hit _ _ _ _ _ _ _ Hg Hl). simpl. split; [done|].
    exists []. rewrite app_nil_r. split; [done|]. intros ? ? Hin. elim_in.
  - destruct (create_certificate_ok w (forge_certspec opts s hn ip)) eqn:Hc.
    + destruct (realloc_ok w (length (server_certificates s) + 1)%nat)
        eqn:Hr.
      * rewrite (forge_miss_inserted _ _ _ _ _ Hg Hc Hr). simpl.
        split; [done|]. eexists. split; [reflexivity|].
        intros ? ? Hin. destruct (log_dump_certificates opts); elim_in;
          congruence.
      * rewrite (forge_miss_realloc_fails _ _ _ _ _ Hg Hc Hr). simpl.
        split; [done|]. eexists. split; [reflexivity|].
        intros ? ? Hin. elim_in. congruence.
    + rewrite (forge_miss_create_fails _ _ _ _ _ Hg Hc). simpl.
      split; [done|]. eexists. split; [reflexivity|].
      intros ? ? Hin. elim_in. congruence.
Qed.

Lemma exec_later_frame w opts c s :
  let s' := exec_later w opts c s in
  (root_ca s' = root_ca s ∧ root_ca_key s' = root_ca_key s ∧
   server_key s' = server_key s ∧ client_key s' = client_key s) ∧
  ∃ evs, trace s' = trace s ++ evs ∧
    ∀ spec res, Ev_create_certificate spec res ∈ evs →
      issuer_privkey spec = root_ca_key s ∧
      issuer_certificate spec = root_ca s ∧
      subject_pubkey spec = server_key s.
Proof.
  destruct c as [hn ip| | | | |]; simpl.
  1: { destruct (forge_frame w opts hn ip s) as (Hh & evs & Ht & Hspec).
       split; [done|]. exists evs. split; [done|].
       intros spec res ->%Hspec. unfold forge_certspec. by destruct hn. }
  all: split;
    [ destruct s as [[c|] [k1|] [k2|] [k3|] tbl xo po no tr]; done
    | destruct s as [[c|] [k1|] [k2|] [k3|] tbl xo po no tr];
      first [ exists []; rewrite app_nil_r; split; [done|]
            | exists [Ev_segfault]; split; [done|] ];
      intros ? ? Hin; elim_in ].
Qed.

(** C8.  No entry point other than [certforgery_init] assigns to [root_ca],
    [root_ca_key], [server_key] or [client_key]: after any sequence of later
    calls the four handles are what they were.  Every specification that
    these calls hand to the construction primitive names the root CA key as
    issuer private key, the root CA certificate as issuer certificate and
    the server key as subject public key. *)
Theorem handles_fixed_after_init :
  ∀ (opts : pgmopts_t) (calls : list (world * later_call)) (s : state),
    let s' := run_later opts calls s in
    root_ca s' = root_ca s ∧ root_ca_key s' = root_ca_key s ∧
    server_key s' = server_key s ∧ client_key s' = client_key s ∧
    ∃ evs, trace s' = trace s ++ evs ∧
      ∀ spec res, Ev_create_certificate spec res ∈ evs →
        issuer_privkey spec = root_ca_key s ∧
        issuer_certificate spec = root_ca s ∧
        subject_pubkey spec = server_key s.
Proof.
  intros opts calls. induction calls as [|[w c] calls IH]; intros s;
    cbv zeta.
  - split_and!; try done. exists []. rewrite app_nil_r. split; [done|].
    intros ? ? Hin. elim_in.
  - rewrite run_later_cons. destruct (crashed s); [apply IH|].
    destruct (exec_later_frame w opts c s)
      as ((H1 & H2 & H3 & H4) & evs1 & Ht1 & Hs1).
    destruct (IH (exec_later w opts c s))
      as (H1' & H2' & H3' & H4' & evs2 & Ht2 & Hs2).
    split_and!; try congruence.
    exists (evs1 ++ evs2). split.
    + by rewrite Ht2, Ht1, app_assoc.
    + intros spec res [Hin|Hin]%elem_of_app; [by eapply Hs1|].
      rewrite <- H1, <- H2, <- H3. by eapply Hs2.
Qed.

(** ** Validity windows *)

Lemma keytype_events_logmsg opts e :
  e ∈ keytype_events opts → ∃ lvl msg, e = Ev_logmsg lvl msg.
Proof.
  unfold keytype_events, fill_pgmopts_keyspec.
  destruct (keyspec_keytype opts); simpl; intros Hin; elim_in.
  subst. eauto.
Qed.

Ltac elim_in_init :=
  repeat match goal with
  | H : _ ∈ [] |- _ => by apply elem_of_nil in H
  | H : _ ∈ _ :: _ |- _ =>
      apply elem_of_cons in H as [H|H]; [try discriminate H|]
  | H : _ ∈ _ ++ _ |- _ => apply elem_of_app in H as [H|H]
  | H : _ ∈ keytype_events _ |- _ =>
      apply keytype_events_logmsg in H as (? & ? & H); discriminate H
  end.

Lemma certforgery_init_trace w opts s :
  ∃ evs, trace (certforgery_init w opts s).2 = trace s ++ evs ∧
    ∀ spec f selfsigned ca res,
      Ev_load_stored_certificate spec f selfsigned ca res ∈ evs →
      ∃ s0, spec = root_certspec opts s0.
Proof.
  init_cases w opts; rewrite <- ?app_assoc;
    (eexists; split; [reflexivity|]); intros ? ? ? ? ? Hin; elim_in_init.
  all: injection Hin as -> _ _ _ _; eauto.
Qed.

(** C9.  Every specification [forge_certificate_for_server] hands to the
    construction primitive starts its validity 86400 seconds in the past and
    lasts 86400*365 seconds; the specification [certforgery_init] hands to
    the load-or-create primitive for the root certificate starts 86400
    seconds in the past and lasts 86400*365*5 seconds.  The products are
    computed in 32-bit [int] arithmetic and do not overflow. *)
Theorem validity_windows :
  ∀ (opts : pgmopts_t),
    (∀ w hn ip s, ∃ evs,
       trace (forge_certificate_for_server w opts hn ip s).2
       = trace s ++ evs ∧
       ∀ spec res, Ev_create_certificate spec res ∈ evs →
         validity_predate_seconds spec = 86400 ∧
         validity_seconds spec = 86400 * 365) ∧
    (∀ w s, ∃ evs,
       trace (certforgery_init w opts s).2 = trace s ++ evs ∧
       ∀ spec f selfsigned ca res,
         Ev_load_stored_certificate spec f selfsigned ca res ∈ evs →
         validity_predate_seconds spec = 86400 ∧
         validity_seconds spec = 86400 * 365 * 5) ∧
    (∀ s hn ip,
       validity_predate_seconds (forge_certspec opts s hn ip) = 86400 ∧
       validity_seconds (forge_certspec opts s hn ip) = 31536000) ∧
    (∀ s,
       validity_predate_seconds (root_certspec opts s) = 86400 ∧
       validity_seconds (root_certspec opts s) = 157680000).
Proof.
  intros opts. split_and!.
  - intros w hn ip s.
    destruct (forge_frame w opts hn ip s) as (_ & evs & Ht & Hspec).
    exists evs. split; [done|]. intros spec res ->%Hspec.
    unfold forge_certspec. by destruct hn.
  - intros w s.
    destruct (certforgery_init_trace w opts s) as (evs & Ht & Hspec).
    exists evs. split; [done|].
    intros spec f ss ca res (s0 & ->)%Hspec. done.
  - intros s hn ip. unfold forge_certspec. by destruct hn.
  - done.
Qed.

(** ** Start-up failures *)

(** C3.  The root certificate's load-or-create primitive fails, everything
    else works: [certforgery_init] still returns [true], with [root_ca] left
    [NULL].  The three key loads just above test their result and return
    [false]; the certificate load does not. *)
Theorem certforgery_init_ignores_root_certificate_failure :
  let r := certforgery_init world_no_root_certificate opts_example
             initial_state in
  r.1 = true ∧
  root_ca r.2 = None ∧
  Ev_load_stored_certificate (root_certspec opts_example r.2)
    "/var/lib/ratched/root.crt" true true None ∈ trace r.2.
Proof.
  vm_compute. split_and!; try reflexivity.
  do 4 apply list_elem_of_further. apply list_elem_of_here.
Qed.

(** Whenever the certificate load is reached, its outcome does not change
    the result. *)
Lemma init_root_ca_unchecked w opts s f :
  get_root_ca_filename w opts = Some f →
  (init_root_ca w opts s).1 = true.
Proof.
  intros Hf. rewrite init_root_ca_eq, Hf.
  by destruct (load_stored_certificate_ok w _ f true true).
Qed.

(** C4, as stated, fails: with a directory that cannot be created and
    collaborators that work all the same, start-up reports success and loads
    all three keys. *)
Lemma certforgery_init_survives_missing_directory :
  (makedirs_ok world_no_directory (config_dir opts_example) = false ∧
   let r := certforgery_init world_no_directory opts_example
              initial_state in
   r.1 = true ∧ root_ca_key r.2 = Some 0%nat ∧
   server_key r.2 = Some 1%nat ∧ client_key r.2 = Some 2%nat) ∧
  ¬ (∀ (w : world) (opts : pgmopts_t),
       makedirs_ok w (config_dir opts) = false →
       let r := certforgery_init w opts initial_state in
       r.1 = false ∧ root_ca_key r.2 = None ∧ server_key r.2 = None ∧
       client_key r.2 = None).
Proof.
  split; [vm_compute; done|].
  intros Hclaim.
  destruct (Hclaim world_no_directory opts_example eq_refl) as [Hres _].
  vm_compute in Hres. discriminate Hres.
Qed.

(** C4, amended.  [certforgery_init] does not look at the outcome of
    [makedirs].  When the directory cannot be created and the root key
    cannot be had either (its file name cannot be built, or the
    load-or-create primitive fails for it), start-up reports failure and no
    key is loaded: no key object comes into being, the server and client key
    handles are untouched and the root key handle holds no new key. *)
Theorem certforgery_init_without_directory :
  ∀ (w : world) (opts : pgmopts_t) (s : state),
    makedirs_ok w (config_dir opts) = false →
    (get_root_key_filename w opts = None ∨
     ∃ f, get_root_key_filename w opts = Some f ∧
          load_stored_key_ok w (keyspec_for opts "root") f = false) →
    let r := certforgery_init w opts s in
    (∀ b, certforgery_init (with_makedirs b w) opts s
          = certforgery_init w opts s) ∧
    r.1 = false ∧
    pkey_objs r.2 = pkey_objs s ∧ next_object r.2 = next_object s ∧
    (root_ca_key r.2 = None ∨ root_ca_key r.2 = root_ca_key s) ∧
    server_key r.2 = server_key s ∧ client_key r.2 = client_key s ∧
    (∀ spec f k, Ev_load_stored_key spec f (Some k) ∈ trace r.2 →
                 Ev_load_stored_key spec f (Some k) ∈ trace s).
Proof.
  intros w opts s _ Hroot r. subst r.
  split; [reflexivity|].
  rewrite certforgery_init_unfold. cbv zeta. rewrite init_root_key_eq.
  destruct Hroot as [->|(f & -> & ->)]; simpl.
  - split_and!; auto. intros spec f k Hin. elim_in_init. done.
  - split_and!; auto. intros spec f' k Hin. elim_in_init. done.
Qed.

Lemma certforgery_init_without_directory_witness :
  (certforgery_init world_no_root_key opts_example initial_state).1 = false ∧
  pkey_objs (certforgery_init world_no_root_key opts_example initial_state).2
    = ∅.
Proof.
  assert (makedirs_ok world_no_root_key (config_dir opts_example) = false)
    as Hdir by reflexivity.
  assert (get_root_key_filename world_no_root_key opts_example = None ∨
          ∃ f, get_root_key_filename world_no_root_key opts_example = Some f ∧
               load_stored_key_ok world_no_root_key
                 (keyspec_for opts_example "root") f = false) as Hkey.
  { right. exists "/var/lib/ratched/root.key". split; reflexivity. }
  pose proof (certforgery_init_without_directory world_no_root_key
                opts_example initial_state Hdir Hkey)
    as (_ & Hres & Hobjs & _).
  split; [exact Hres|exact Hobjs].
Defined.

(** ** An unknown key type *)

Lemma keyspec_for_unknown opts raw d :
  keyspec_keytype opts = KEYTYPE_other raw →
  keyspec_for opts d = keyspec_init d.
Proof. unfold keyspec_for, fill_pgmopts_keyspec. by intros ->. Qed.

(** [certforgery_init] succeeds exactly when the four file names can be
    built and the three key loads succeed, whatever the key type. *)
Lemma certforgery_init_true w opts s :
  (certforgery_init w opts s).1 = true ↔
  ∃ f1 f2 f3 f4,
    get_root_key_filename w opts = Some f1 ∧
    load_stored_key_ok w (keyspec_for opts "root") f1 = true ∧
    get_server_key_filename w opts = Some f2 ∧
    load_stored_key_ok w (keyspec_for opts "TLS server") f2 = true ∧
    get_client_key_filename w opts = Some f3 ∧
    load_stored_key_ok w (keyspec_for opts "TLS client") f3 = true ∧
    get_root_ca_filename w opts = Some f4.
Proof.
  init_cases w opts.
  1, 2: split; [intros _; eauto 12|done].
  all: split; [discriminate|];
    intros (? & ? & ? & ? & ? & ? & ? & ? & ? & ? & ?); congruence.
Qed.

(** With the first two keys in place, all three loads are in the trace. *)
Lemma certforgery_init_three_loads w opts s f1 f2 f3 :
  get_root_key_filename w opts = Some f1 →
  load_stored_key_ok w (keyspec_for opts "root") f1 = true →
  get_server_key_filename w opts = Some f2 →
  load_stored_key_ok w (keyspec_for opts "TLS server") f2 = true →
  get_client_key_filename w opts = Some f3 →
  ∃ k1 k2 res,
    Ev_load_stored_key (keyspec_for opts "root") f1 (Some k1)
      ∈ trace (certforgery_init w opts s).2 ∧
    Ev_load_stored_key (keyspec_for opts "TLS server") f2 (Some k2)
      ∈ trace (certforgery_init w opts s).2 ∧
    Ev_load_stored_key (keyspec_for opts "TLS client") f3 res
      ∈ trace (certforgery_init w opts s).2.
Proof.
  intros H1 Hk1 H2 Hk2 H3.
  rewrite certforgery_init_unfold. cbv zeta.
  rewrite init_root_key_eq, H1, Hk1. simpl.
  rewrite init_server_key_eq, H2, Hk2. simpl.
  rewrite init_client_key_eq, H3.
  destruct (load_stored_key_ok w (keyspec_for opts "TLS client") f3); simpl;
    [rewrite init_root_ca_eq;
     destruct (get_root_ca_filename w opts) as [f4|];
       [destruct (load_stored_certificate_ok w _ f4 true true)|]; simpl|];
    eexists _, _, _; rewrite !elem_of_app, !elem_of_cons;
    split_and!; eauto 20.
Qed.

(** C10.  With a key type that is neither RSA nor elliptic-curve,
    [fill_pgmopts_keyspec] logs and leaves the structure as it found it, so
    the cryptosystem of every key specification stays as initialised.
    [certforgery_init] goes on regardless: it succeeds exactly when the file
    names can be built and the key loads succeed, and when the file names
    can be built and the first two loads succeed, all three loads are
    attempted, each with a specification whose cryptosystem is unset. *)
Theorem unknown_keytype_does_not_fail_init :
  ∀ (w : world) (opts : pgmopts_t) (s : state) (raw : Z),
    keyspec_keytype opts = KEYTYPE_other raw →
    (∀ ks s0,
       fill_pgmopts_keyspec opts ks s0
       = (ks,
          set_trace (trace s0 ++
            [Ev_logmsg LLVL_FATAL
               "Unknown keyspec.keytype given in program options (0x%x)"])
            s0)) ∧
    (∀ d, keyspec_for opts d = keyspec_init d ∧
          cryptosystem (keyspec_for opts d) = None) ∧
    ((certforgery_init w opts s).1 = true ↔
     ∃ f1 f2 f3 f4,
       get_root_key_filename w opts = Some f1 ∧
       load_stored_key_ok w (keyspec_init "root") f1 = true ∧
       get_server_key_filename w opts = Some f2 ∧
       load_stored_key_ok w (keyspec_init "TLS server") f2 = true ∧
       get_client_key_filename w opts = Some f3 ∧
       load_stored_key_ok w (keyspec_init "TLS client") f3 = true ∧
       get_root_ca_filename w opts = Some f4) ∧
    (∀ f1 f2 f3,
       get_root_key_filename w opts = Some f1 →
       load_stored_key_ok w (keyspec_init "root") f1 = true →
       get_server_key_filename w opts = Some f2 →
       load_stored_key_ok w (keyspec_init "TLS server") f2 = true →
       get_client_key_filename w opts = Some f3 →
       ∃ k1 k2 res,
         Ev_load_stored_key (keyspec_init "root") f1 (Some k1)
           ∈ trace (certforgery_init w opts s).2 ∧
         Ev_load_stored_key (keyspec_init "TLS server") f2 (Some k2)
           ∈ trace (certforgery_init w opts s).2 ∧
         Ev_load_stored_key (keyspec_init "TLS client") f3 res
           ∈ trace (certforgery_init w opts s).2).
Proof.
  intros w opts s raw Hkt.
  pose proof (keyspec_for_unknown opts raw) as Hks.
  split_and!.
  - intros ks s0. unfold fill_pgmopts_keyspec. rewrite Hkt. reflexivity.
  - intros d. by rewrite Hks.
  - rewrite certforgery_init_true, !Hks by done. reflexivity.
  - intros f1 f2 f3. rewrite <- !(Hks _ Hkt).
    apply certforgery_init_three_loads.
Qed.

Lemma unknown_keytype_does_not_fail_init_witness :
  (certforgery_init world_ok opts_unknown_keytype initial_state).1 = true.
Proof.
  pose proof (unknown_keytype_does_not_fail_init world_ok
                opts_unknown_keytype initial_state 7 eq_refl)
    as (_ & _ & Hiff & _).
  apply Hiff.
  exists "/var/lib/ratched/root.key", "/var/lib/ratched/server.key",
    "/var/lib/ratched/client.key", "/var/lib/ratched/root.crt".
  split_and!; reflexivity.
Defined.

(** ** Worked examples *)

(** An address alone and a hostname at the same address are two
    identities; so are one hostname at two addresses.  Asking again for any
    of them adds nothing. *)
Example identity_partition :
  let calls := [
    (world_ok, Call_forge_certificate_for_server None ip_10_0_0_1);
    (world_ok, Call_forge_certificate_for_server (Some "example.com")
                 ip_10_0_0_1);
    (world_ok, Call_forge_certificate_for_server (Some "example.com")
                 ip_192_0_2_5);
    (world_ok, Call_forge_certificate_for_server None ip_10_0_0_1);
    (world_ok, Call_forge_certificate_for_server (Some "example.com")
                 ip_10_0_0_1) ] in
  server_certificates (run_later opts_example calls started)
  = [ {| hostname := None; ipv4_nbo := ip_10_0_0_1; certificate := 4%nat |};
      {| hostname := Some "example.com"; ipv4_nbo := ip_10_0_0_1;
         certificate := 5%nat |};
      {| hostname := Some "example.com"; ipv4_nbo := ip_192_0_2_5;
         certificate := 6%nat |} ].
Proof. vm_compute. reflexivity. Qed.

Example lookup_partition :
  let tbl := [
    {| hostname := Some "example.com"; ipv4_nbo := ip_10_0_0_1;
       certificate := 4%nat |};
    {| hostname := None; ipv4_nbo := ip_10_0_0_1; certificate := 5%nat |} ] in
  get_server_certificate tbl None ip_10_0_0_1 = Some 1%nat ∧
  get_server_certificate tbl (Some "example.com") ip_10_0_0_1 = Some 0%nat ∧
  get_server_certificate tbl (Some "example.org") ip_10_0_0_1 = None ∧
  get_server_certificate tbl None ip_192_0_2_5 = None.
Proof. vm_compute. done. Qed.

(** Start-up in a world where everything works: three keys, then the root
    certificate. *)
Example started_handles :
  root_ca_key started = Some 0%nat ∧ server_key started = Some 1%nat ∧
  client_key started = Some 2%nat ∧ root_ca started = Some 3%nat.
Proof. vm_compute. done. Qed.

(** * Further properties *)

(** ** Insertion and lookup *)

(** A lookup in a table with one more entry: an older match wins, and the
    new entry is found only when nothing older matches. *)
Lemma get_server_certificate_app_one tbl e hn ip :
  get_server_certificate (tbl ++ [e]) hn ip
  = match get_server_certificate tbl hn ip with
    | Some i => Some i
    | None => if matches_identity hn ip e then Some (length tbl) else None
    end.
Proof.
  rewrite !get_server_certificate_find.
  destruct (list_find (λ e, matches_identity hn ip e) tbl) as [[j y]|] eqn:Hf.
  - by rewrite (list_find_app_l _ _ [e] _ _ Hf).
  - rewrite (list_find_app_r _ _ [e] Hf). cbn [list_find].
    destruct (matches_identity hn ip e).
    + rewrite decide_True by exact I. reflexivity.
    + rewrite decide_False by (intros []). reflexivity.
Qed.

Lemma add_server_certificate_eq w hn ip c s :
  add_server_certificate w hn ip c s
  = if realloc_ok w (length (server_certificates s) + 1)%nat
    then (Some (length (server_certificates s)),
          set_server_certificates
            (server_certificates s ++
               [ {| hostname := hn ≫= strdup w; ipv4_nbo := ip;
                    certificate := c |} ]) s)
    else (None,
          set_trace (trace s ++
            [ Ev_logmsg LLVL_FATAL
                "Failed to realloc(3) server_certificates: %s" ]) s).
Proof.
  unfold add_server_certificate, realloc. step_m.
  destruct (realloc_ok w _); step_m; [|reflexivity].
  rewrite length_app. simpl. do 2 f_equal. lia.
Qed.

(** X1.  A successful [add_server_certificate] appends exactly one entry,
    at the index it returns.  The entry is filed under the copy of the
    hostname: the hostname itself when there is none or [strdup] succeeds,
    and no hostname when [strdup] fails, which the function does not check.
    A lookup for the identity the entry is filed under then succeeds: it
    returns the older entry of that identity if the table had one (the
    function does not look for duplicates, and a duplicate is never found),
    and the new entry otherwise.  When the copy failed, a lookup for the
    hostname that was passed finds what it found before. *)
Theorem add_server_certificate_then_lookup :
  ∀ (w : world) (hn : option string) (ip : Z) (c : X509) (s : state)
    (i : nat),
    (add_server_certificate w hn ip c s).1 = Some i →
    let stored := hn ≫= strdup w in
    let tbl := server_certificates s in
    let tbl' := server_certificates (add_server_certificate w hn ip c s).2 in
    i = length tbl ∧
    tbl'
    = tbl ++ [ {| hostname := stored; ipv4_nbo := ip; certificate := c |} ] ∧
    get_server_certificate tbl' stored ip
    = Some (default i (get_server_certificate tbl stored ip)) ∧
    (∀ h, hn = Some h →
       stored = if strdup_ok w h then Some h else None) ∧
    (hn = None → stored = None) ∧
    (∀ h, hn = Some h → strdup_ok w h = false →
       get_server_certificate tbl' hn ip = get_server_certificate tbl hn ip).
Proof.
  intros w hn ip c s i. rewrite add_server_certificate_eq.
  destruct (realloc_ok w _); simpl; [|discriminate].
  intros [= <-]. split_and!; [done..| | | |].
  - rewrite get_server_certificate_app_one.
    destruct (get_server_certificate (server_certificates s) _ ip); [done|].
    simpl. by rewrite (proj2 (matches_identity_true _ ip _)).
  - intros h ->. simpl. unfold strdup. by destruct (strdup_ok w h).
  - by intros ->.
  - intros h -> Hfail. change (Some h ≫= strdup w) with (strdup w h).
    unfold strdup. rewrite Hfail, get_server_certificate_app_one.
    by destruct (get_server_certificate (server_certificates s) _ ip).
Qed.

(** A hostname that cannot be copied: the entry is found under the address
    alone. *)
Lemma add_server_certificate_then_lookup_witness :
  server_certificates
    (add_server_certificate world_no_strdup (Some "example.com")
       ip_10_0_0_1 7%nat started).2
  = [ {| hostname := None; ipv4_nbo := ip_10_0_0_1;
         certificate := 7%nat |} ] ∧
  get_server_certificate
    (server_certificates
       (add_server_certificate world_no_strdup (Some "example.com")
          ip_10_0_0_1 7%nat started).2)
    None ip_10_0_0_1 = Some 0%nat.
Proof.
  pose proof (add_server_certificate_then_lookup world_no_strdup
    (Some "example.com") ip_10_0_0_1 7%nat started 0%nat eq_refl)
    as (_ & Htbl & Hfound & _).
  split; [exact Htbl|exact Hfound].
Defined.

(** X2.  Whether it succeeds or not, [add_server_certificate] does not
    change what a lookup returns for any identity other than the one the
    new entry is filed under (the address with the copy of the hostname). *)
Theorem add_server_certificate_other_identity :
  ∀ (w : world) (hn hn' : option string) (ip ip' : Z) (c : X509)
    (s : state),
    (hn', ip') ≠ (hn ≫= strdup w, ip) →
    get_server_certificate
      (server_certificates (add_server_certificate w hn ip c s).2) hn' ip'
    = get_server_certificate (server_certificates s) hn' ip'.
Proof.
  intros w hn hn' ip ip' c s Hne. rewrite add_server_certificate_eq.
  destruct (realloc_ok w _); simpl; [|done].
  rewrite get_server_certificate_app_one.
  destruct (get_server_certificate (server_certificates s) hn' ip'); [done|].
  destruct (matches_identity hn' ip' _) eqn:Hm; [|done].
  apply matches_identity_true in Hm as [Hh Hi]. simpl in Hh, Hi.
  destruct Hne. by rewrite Hh, Hi.
Qed.

(** The hostname cannot be copied, so the entry is filed under the address
    alone and a lookup for the hostname still finds nothing. *)
Lemma add_server_certificate_other_identity_witness :
  get_server_certificate
    (server_certificates
       (add_server_certificate world_no_strdup (Some "example.com")
          ip_10_0_0_1 7%nat started).2)
    (Some "example.com") ip_10_0_0_1 = None.
Proof.
  exact (add_server_certificate_other_identity world_no_strdup
    (Some "example.com") (Some "example.com") ip_10_0_0_1 ip_10_0_0_1
    7%nat started ltac:(discriminate)).
Defined.

(** ** When the orchestrator fails *)

(** X3.  [forge_certificate_for_server] returns no certificate exactly when
    the identity is not in the table and either the construction primitive
    or the growth of the table fails.  For an identity that is in the table
    the collaborators are not consulted: the call succeeds and does the same
    in every world. *)
Theorem forge_fails_exactly_when :
  ∀ (w : world) (opts : pgmopts_t) (hn : option string) (ip : Z)
    (s : state),
    ((forge_certificate_for_server w opts hn ip s).1 = None ↔
     get_server_certificate (server_certificates s) hn ip = None ∧
     (create_certificate_ok w (forge_certspec opts s hn ip) = false ∨
      realloc_ok w (length (server_certificates s) + 1)%nat = false)) ∧
    (∀ i w', get_server_certificate (server_certificates s) hn ip = Some i →
       forge_certificate_for_server w opts hn ip s
       = forge_certificate_for_server w' opts hn ip s).
Proof.
  intros w opts hn ip s. split.
  - destruct (get_server_certificate (server_certificates s) hn ip)
      as [i|] eqn:Hg.
    + destruct (get_server_certificate_entry _ _ _ _ Hg) as (e & Hl & _).
      rewrite (forge_hit _ _ _ _ _ _ _ Hg Hl). simpl.
      split; [discriminate|]. by intros [? _].
    + destruct (create_certificate_ok w (forge_certspec opts s hn ip))
        eqn:Hc.
      * destruct (realloc_ok w (length (server_certificates s) + 1)%nat)
          eqn:Hr.
        -- rewrite (forge_miss_inserted _ _ _ _ _ Hg Hc Hr). simpl.
           split; [discriminate|]. intros [_ [?|?]]; discriminate.
        -- rewrite (forge_miss_realloc_fails _ _ _ _ _ Hg Hc Hr). simpl.
           split; auto.
      * rewrite (forge_miss_create_fails _ _ _ _ _ Hg Hc). simpl.
        split; auto.
  - intros i w' Hg.
    destruct (get_server_certificate_entry _ _ _ _ Hg) as (e & Hl & _).
    by rewrite !(forge_hit _ _ _ _ _ _ _ Hg Hl).
Qed.

(** ** The table over a run *)

Lemma exec_cache_prefix w opts c s :
  server_certificates s `prefix_of` server_certificates (exec w opts c s).
Proof.
  destruct c as [|c]; simpl.
  - by rewrite certforgery_init_cache.
  - destruct (exec_later_cache_cases w opts c s)
      as [->|(? & ? & ? & _ & ->)]; [done|by apply prefix_app_r].
Qed.

(** X4.  The table is append-only: whatever calls are made and whatever the
    collaborators answer, the table before is a prefix of the table after.
    No entry is ever removed, moved or changed, also not by
    [certforgery_deinit]. *)
Theorem cache_append_only :
  ∀ (opts : pgmopts_t) (calls : list (world * api_call)) (s : state),
    server_certificates s `prefix_of` server_certificates (run opts calls s).
Proof.
  intros opts calls s.
  apply (run_invariant
           (λ s', server_certificates s `prefix_of` server_certificates s'));
    [|done].
  intros w c s' Hpre. etrans; [exact Hpre|apply exec_cache_prefix].
Qed.

Lemma exec_cache_requested w opts c s e :
  e ∈ server_certificates (exec w opts c s) →
  e ∈ server_certificates s ∨
  ∃ hn, request_of c = Some (hn, ipv4_nbo e) ∧
        hostname e = hn ≫= strdup w.
Proof.
  destruct c as [|c]; simpl.
  - rewrite certforgery_init_cache. auto.
  - destruct c as [hn ip| | | | |]; simpl;
      try (destruct (getters_and_deinit_cache s) as (Hc1&Hc2&Hc3&Hc4&Hc5);
           rewrite ?Hc1, ?Hc2, ?Hc3, ?Hc4, ?Hc5; by auto).
    destruct (forge_cache_cases w opts hn ip s) as [->|(_ & c & _ & ->)];
      [by auto|].
    intros [?|Hin]%elem_of_app; [by auto|].
    apply list_elem_of_singleton in Hin as ->. right. by exists hn.
Qed.

(** X5.  The table only ever holds entries somebody asked for: an entry of
    the table after a run was in the table before, or a call of
    [forge_certificate_for_server] of that run asked for its address, and
    its hostname is the copy made of that call's hostname: the hostname of
    the call, or none (when the call had none or the copy failed). *)
Theorem cache_holds_only_requested_identities :
  ∀ (opts : pgmopts_t) (calls : list (world * api_call)) (s : state)
    (e : server_certificate_t),
    e ∈ server_certificates (run opts calls s) →
    e ∈ server_certificates s ∨
    ∃ w c hn, (w, c) ∈ calls ∧
      request_of c = Some (hn, ipv4_nbo e) ∧
      hostname e = hn ≫= strdup w ∧
      (hostname e = hn ∨ hostname e = None).
Proof.
  intros opts calls. induction calls as [|[w c] calls IH]; intros s e;
    [by auto|].
  rewrite run_cons.
  intros [Hin|(w' & c' & hn & Hin & Hreq)]%IH.
  - destruct (crashed s); [by auto|].
    apply exec_cache_requested in Hin as [?|(hn & Hreq & Hh)]; [by auto|].
    right. exists w, c, hn. split_and!; [apply list_elem_of_here|done..|].
    rewrite Hh. apply strdup_cases.
  - right. exists w', c', hn. split; [by apply list_elem_of_further|done].
Qed.

(** A request for a hostname that cannot be copied leaves an entry without
    hostname. *)
Lemma cache_holds_only_requested_identities_witness :
  let calls := [(world_ok, Call_certforgery_init);
                (world_no_strdup, Call_later
                   (Call_forge_certificate_for_server (Some "example.com")
                      ip_10_0_0_1))] in
  let e := {| hostname := None; ipv4_nbo := ip_10_0_0_1;
              certificate := 4%nat |} in
  e ∈ server_certificates (run opts_example calls initial_state) ∧
  (e ∈ server_certificates initial_state ∨
   ∃ w c hn, (w, c) ∈ calls ∧
     request_of c = Some (hn, ipv4_nbo e) ∧
     hostname e = hn ≫= strdup w ∧
     (hostname e = hn ∨ hostname e = None)).
Proof.
  intros calls e.
  assert (e ∈ server_certificates (run opts_example calls initial_state))
    as Hin by (vm_compute; apply list_elem_of_here).
  split; [exact Hin|].
  exact (cache_holds_only_requested_identities opts_example calls
           initial_state e Hin).
Defined.

Lemma exec_cached w opts c hn ip cert s :
  cached_as hn ip cert (server_certificates s) →
  cached_as hn ip cert (server_certificates (exec w opts c s)).
Proof.
  intros Hc. destruct (exec_cache_prefix w opts c s) as [more ->].
  by apply cached_as_app.
Qed.

Lemma run_cached opts calls hn ip cert s :
  cached_as hn ip cert (server_certificates s) →
  cached_as hn ip cert (server_certificates (run opts calls s)).
Proof.
  revert s.
  apply (run_invariant
           (λ s, cached_as hn ip cert (server_certificates s))).
  intros w c s. apply exec_cached.
Qed.

Lemma forge_succeeds_when_world_succeeds w opts hn ip s :
  world_succeeds w →
  ∃ cert, (forge_certificate_for_server w opts hn ip s).1 = Some cert.
Proof.
  intros (Hcreate & Hgrow & _).
  destruct (get_server_certificate (server_certificates s) hn ip)
    as [i|] eqn:Hg.
  - destruct (get_server_certificate_entry _ _ _ _ Hg) as (e & Hl & _).
    rewrite (forge_hit _ _ _ _ _ _ _ Hg Hl). eauto.
  - rewrite (forge_miss_inserted _ _ _ _ _ Hg (Hcreate _) (Hgrow _)).
    eauto.
Qed.

(** X6.  When certificates can be constructed, the table can grow and
    hostnames can be copied during every call of a run, and the run is not
    cut short by a call that ends the process, every identity asked for
    during the run is in the table at its end. *)
Theorem every_request_cached_when_world_succeeds :
  ∀ (opts : pgmopts_t) (calls : list (world * api_call)) (s : state)
    (w : world) (hn : option string) (ip : Z),
    Forall (λ wc, world_succeeds wc.1) calls →
    crashed (run opts calls s) = false →
    (w, Call_later (Call_forge_certificate_for_server hn ip)) ∈ calls →
    ∃ i e, get_server_certificate
             (server_certificates (run opts calls s)) hn ip = Some i ∧
           server_certificates (run opts calls s) !! i = Some e ∧
           identity e = (hn, ip).
Proof.
  intros opts calls. induction calls as [|[w0 c0] calls IH];
    intros s w hn ip Hok Hlive Hin; [by apply elem_of_nil in Hin|].
  apply Forall_cons in Hok as [Hw Hok]. revert Hlive. rewrite run_cons.
  destruct (crashed s) eqn:Hs.
  { rewrite (run_crashed _ _ _ Hs). congruence. }
  intros Hlive.
  apply elem_of_cons in Hin as [[= <- <-]|Hin]; [|by eapply IH].
  simpl in *.
  destruct (forge_succeeds_when_world_succeeds w opts hn ip s Hw)
    as [cert Hres].
  apply forge_success_cached in Hres;
    [|apply strdup_copied, (proj2 (proj2 Hw))].
  apply (run_cached opts calls) in Hres as (i & e & Hg & Hl & _).
  exists i, e. split_and!; [done..|].
  apply get_server_certificate_entry in Hg as (e' & Hl' & <- & <-).
  assert (e' = e) as -> by congruence. done.
Qed.

Lemma every_request_cached_when_world_succeeds_witness :
  ∃ i e,
    get_server_certificate
      (server_certificates
         (run opts_example
            [(world_ok, Call_certforgery_init);
             (world_ok, Call_later
                (Call_forge_certificate_for_server (Some "example.com")
                   ip_192_0_2_5))]
            initial_state)) (Some "example.com") ip_192_0_2_5 = Some i ∧
    server_certificates
      (run opts_example
         [(world_ok, Call_certforgery_init);
          (world_ok, Call_later
             (Call_forge_certificate_for_server (Some "example.com")
                ip_192_0_2_5))]
         initial_state) !! i = Some e ∧
    identity e = (Some "example.com", ip_192_0_2_5).
Proof.
  apply (every_request_cached_when_world_succeeds opts_example _
           initial_state world_ok (Some "example.com") ip_192_0_2_5).
  - repeat constructor.
  - vm_compute. reflexivity.
  - apply list_elem_of_further, list_elem_of_here.
Defined.

(** X18.  As long as every hostname can be copied, the table holds at
    most one entry per identity: starting from the zero-initialised
    statics, after any sequence of calls into the file in which [strdup]
    does not fail, no two entries have equal hostname components and equal
    addresses. *)
Theorem cache_at_most_one_entry_when_hostnames_are_copied :
  ∀ (opts : pgmopts_t) (calls : list (world * api_call)),
    Forall (λ wc, strdup_succeeds wc.1) calls →
    at_most_one_per_identity
      (server_certificates (run opts calls initial_state)).
Proof.
  intros opts calls Hcopy. apply run_preserves_at_most_one; [done|].
  intros i j e1 e2 H1. change (server_certificates initial_state) with
    (@nil server_certificate_t) in H1. by rewrite lookup_nil in H1.
Qed.

Lemma cache_at_most_one_entry_when_hostnames_are_copied_witness :
  at_most_one_per_identity
    (server_certificates
       (run opts_example
          [ (world_ok, Call_certforgery_init);
            (world_ok, Call_later
               (Call_forge_certificate_for_server (Some "example.com")
                  ip_10_0_0_1));
            (world_no_memory, Call_later
               (Call_forge_certificate_for_server None ip_10_0_0_1));
            (world_ok, Call_later
               (Call_forge_certificate_for_server (Some "example.com")
                  ip_10_0_0_1)) ]
          initial_state)).
Proof.
  apply (cache_at_most_one_entry_when_hostnames_are_copied opts_example).
  repeat constructor.
Defined.

(** X19.  If a call of [forge_certificate_for_server] for [(hn, ip)]
    returns a certificate [c], and the hostname of that call could be
    copied (or there was none), then a second call for the same pair, made
    directly afterwards or after any other later calls, returns the same
    object [c].  The second call constructs nothing (it adds no event to
    the trace and allocates no object), leaves the table as it is, and only
    takes one more reference on [c]. *)
Theorem forge_twice_same_certificate_when_copied :
  ∀ (opts : pgmopts_t) (w1 w2 : world) (hn : option string) (ip : Z)
    (s : state) (c : X509) (between : list (world * later_call)),
    hn ≫= strdup w1 = hn →
    (forge_certificate_for_server w1 opts hn ip s).1 = Some c →
    let s1 := (forge_certificate_for_server w1 opts hn ip s).2 in
    let s2 := run_later opts between s1 in
    let r := forge_certificate_for_server w2 opts hn ip s2 in
    r.1 = Some c ∧
    server_certificates r.2 = server_certificates s2 ∧
    trace r.2 = trace s2 ∧
    next_object r.2 = next_object s2 ∧
    x509_objs r.2 = up_ref c (x509_objs s2) ∧
    r.2 = set_x509_objs (up_ref c (x509_objs s2)) s2.
Proof.
  intros opts w1 w2 hn ip s c between Hcopy Hfirst s1 s2 r.
  assert (cached_as hn ip c (server_certificates s2))
    as (i & e & Hg & Hl & <-).
  { apply run_later_cached. by apply forge_success_cached. }
  subst r. rewrite (forge_hit _ _ _ _ _ _ _ Hg Hl). done.
Qed.

Lemma forge_twice_same_certificate_when_copied_witness :
  (forge_certificate_for_server world_ok opts_example (Some "example.com")
     ip_10_0_0_1 started).1 = Some 4%nat ∧
  (forge_certificate_for_server world_no_strdup opts_example
     (Some "example.com") ip_10_0_0_1
     (run_later opts_example
        [(world_ok, Call_forge_certificate_for_server None ip_10_0_0_1);
         (world_ok, Call_get_forged_root_certificate)]
        (forge_certificate_for_server world_ok opts_example
           (Some "example.com") ip_10_0_0_1 started).2)).1 = Some 4%nat.
Proof.
  assert ((forge_certificate_for_server world_ok opts_example
             (Some "example.com") ip_10_0_0_1 started).1 = Some 4%nat)
    as Hfirst by (vm_compute; reflexivity).
  split; [exact Hfirst|].
  exact (proj1 (forge_twice_same_certificate_when_copied opts_example
    world_ok world_no_strdup (Some "example.com") ip_10_0_0_1 started
    4%nat
    [(world_ok, Call_forge_certificate_for_server None ip_10_0_0_1);
     (world_ok, Call_get_forged_root_certificate)] eq_refl Hfirst)).
Defined.

(** ** Objects and references *)

Lemma up_ref_lookup o o' (h : gmap nat nat) :
  up_ref o h !! o' = if decide (o = o') then S <$> h !! o' else h !! o'.
Proof.
  unfold up_ref. case_decide as Ho; [subst o'|].
  - destruct (h !! o) as [n|] eqn:Hl; [by rewrite lookup_insert_eq|].
    by rewrite Hl.
  - destruct (h !! o); [by rewrite lookup_insert_ne|done].
Qed.

Lemma drop_ref_lookup o o' (h : gmap nat nat) :
  drop_ref o h !! o'
  = if decide (o = o')
    then match h !! o' with Some (S (S n)) => Some (S n) | _ => None end
    else h !! o'.
Proof.
  unfold drop_ref. case_decide as Ho; [subst o'|].
  - destruct (h !! o) as [[|[|n]]|] eqn:Hl;
      rewrite ?lookup_delete_eq, ?lookup_insert_eq, ?Hl; done.
  - destruct (h !! o) as [[|[|n]]|];
      rewrite ?lookup_delete_ne, ?lookup_insert_ne by done; done.
Qed.

Lemma heap_below_mono h k k' :
  (k ≤ k')%nat → heap_below h k → heap_below h k'.
Proof. intros Hk Hb o n Hl. specialize (Hb o n Hl). lia. Qed.

Lemma heap_below_insert h k v :
  heap_below h k → heap_below (<[k := v]> h) (S k).
Proof.
  intros Hb o n [[<- _]|[_ Hl]]%lookup_insert_Some; [lia|].
  specialize (Hb o n Hl). lia.
Qed.

Lemma heap_below_insert_lt h k k' v :
  (k < k')%nat → heap_below h k' → heap_below (<[k := v]> h) k'.
Proof.
  intros Hk Hb o n [[<- _]|[_ Hl]]%lookup_insert_Some; [lia|].
  by eapply Hb.
Qed.

Lemma heap_below_up_ref o h k : heap_below h k → heap_below (up_ref o h) k.
Proof.
  intros Hb o' n. rewrite up_ref_lookup. case_decide; [|apply Hb].
  destruct (h !! o') as [m|] eqn:Hl; [|done]. intros _. by eapply Hb.
Qed.

Lemma heap_below_drop_ref o h k :
  heap_below h k → heap_below (drop_ref o h) k.
Proof.
  intros Hb o' n. rewrite drop_ref_lookup. case_decide; [|apply Hb].
  destruct (h !! o') as [m|] eqn:Hl; [|done]. intros _. by eapply Hb.
Qed.

Lemma certs_live_insert_fresh tbl h k v :
  heap_below h k → certs_live tbl h → certs_live tbl (<[k := v]> h).
Proof.
  intros Hb Hlive e He. destruct (Hlive e He) as [n Hl]. exists n.
  rewrite lookup_insert_ne; [done|]. specialize (Hb _ _ Hl). lia.
Qed.

Lemma certs_live_up_ref tbl h o :
  certs_live tbl h → certs_live tbl (up_ref o h).
Proof.
  intros Hlive e He. destruct (Hlive e He) as [n Hl].
  rewrite up_ref_lookup, Hl. case_decide; simpl; eauto.
Qed.

Lemma certs_live_drop_ref_other tbl h o :
  (∀ e, e ∈ tbl → certificate e ≠ o) →
  certs_live tbl h → certs_live tbl (drop_ref o h).
Proof.
  intros Hother Hlive e He. destruct (Hlive e He) as [n Hl].
  rewrite drop_ref_lookup, decide_False; [eauto|].
  intros ->. by eapply Hother.
Qed.

Lemma certs_live_below tbl h k e :
  heap_below h k → certs_live tbl h → e ∈ tbl → (certificate e < k)%nat.
Proof. intros Hb Hlive He. destruct (Hlive e He) as [n Hl]. by eapply Hb. Qed.

(** The invariant holds at process start and every call keeps it. *)
Lemma initial_state_wf : objects_wf initial_state.
Proof.
  unfold objects_wf, heap_below, certs_live. simpl. split_and!.
  - intros o n Hl. by rewrite lookup_empty in Hl.
  - intros o n Hl. by rewrite lookup_empty in Hl.
  - intros e He. by apply elem_of_nil in He.
  - constructor.
  - done.
Qed.

Lemma forge_wf w opts hn ip s :
  objects_wf s →
  objects_wf (forge_certificate_for_server w opts hn ip s).2.
Proof.
  intros (Hx & Hp & Hlive & Hnd & Hroot).
  destruct (get_server_certificate (server_certificates s) hn ip)
    as [i|] eqn:Hg.
  - destruct (get_server_certificate_entry _ _ _ _ Hg) as (e & Hl & _).
    rewrite (forge_hit _ _ _ _ _ _ _ Hg Hl). unfold objects_wf. simpl.
    split_and!; auto using heap_below_up_ref, certs_live_up_ref.
  - destruct (create_certificate_ok w (forge_certspec opts s hn ip)) eqn:Hc.
    + destruct (realloc_ok w (length (server_certificates s) + 1)%nat)
        eqn:Hr.
      * rewrite (forge_miss_inserted _ _ _ _ _ Hg Hc Hr).
        unfold objects_wf. simpl. split_and!.
        -- by apply heap_below_up_ref, heap_below_insert.
        -- eapply heap_below_mono; [|done]. lia.
        -- intros e [He|He]%elem_of_app.
           ++ revert e He. change (certs_live (server_certificates s)
                (up_ref (next_object s)
                   (<[next_object s:=1%nat]> (x509_objs s)))).
              by apply certs_live_up_ref, certs_live_insert_fresh.
           ++ apply list_elem_of_singleton in He as ->. simpl.
              rewrite up_ref_lookup, decide_True, lookup_insert_eq by done.
              simpl. eauto.
        -- rewrite fmap_app. apply NoDup_app. split_and!; [done| |].
           ++ intros c (e & -> & He)%list_elem_of_fmap Hin.
              apply list_elem_of_singleton in Hin. simpl in Hin.
              pose proof (certs_live_below _ _ _ _ Hx Hlive He). lia.
           ++ apply NoDup_singleton.
        -- intros r Hr'. destruct (Hroot r Hr') as [Hlt Hne].
           split; [lia|]. intros e [He|He]%elem_of_app; [by apply Hne|].
           apply list_elem_of_singleton in He as ->. simpl. lia.
      * rewrite (forge_miss_realloc_fails _ _ _ _ _ Hg Hc Hr).
        unfold objects_wf. simpl. split_and!.
        -- by apply heap_below_drop_ref, heap_below_insert.
        -- eapply heap_below_mono; [|done]. lia.
        -- apply certs_live_drop_ref_other;
             [|by apply certs_live_insert_fresh].
           intros e He. pose proof (certs_live_below _ _ _ _ Hx Hlive He).
           lia.
        -- done.
        -- intros r Hr'. destruct (Hroot r Hr') as [Hlt Hne].
           split; [lia|done].
    + rewrite (forge_miss_create_fails _ _ _ _ _ Hg Hc). by unfold objects_wf.
Qed.

Lemma getters_and_deinit_wf s :
  objects_wf s →
  objects_wf (get_forged_root_certificate s).2 ∧
  objects_wf (get_forged_root_key s).2 ∧
  objects_wf (get_tls_server_key s).2 ∧
  objects_wf (get_tls_client_key s).2 ∧
  objects_wf (certforgery_deinit s).2.
Proof.
  unfold get_forged_root_certificate, get_forged_root_key,
    get_tls_server_key, get_tls_client_key, certforgery_deinit, objects_wf.
  destruct s as [[c|] [k1|] [k2|] [k3|] tbl xo po no tr]; step_m;
    intros (Hx & Hp & Hlive & Hnd & Hroot);
    split_and!;
    auto using heap_below_up_ref, heap_below_drop_ref, certs_live_up_ref.
  all: apply certs_live_drop_ref_other; [|done].
  all: intros e He; by apply (Hroot c eq_refl).
Qed.

Lemma init_wf w opts s :
  objects_wf s → objects_wf (certforgery_init w opts s).2.
Proof.
  intros (Hx & Hp & Hlive & Hnd & Hroot).
  init_cases w opts; unfold objects_wf; simpl; split_and!;
    try done;
    repeat first
      [ apply heap_below_insert
      | (apply heap_below_insert_lt; [lia|])
      | apply certs_live_insert_fresh
      | assumption
      | (eapply heap_below_mono; [|eassumption]; lia) ].
  all: try (intros r Hr'; destruct (Hroot r Hr') as [Hlt Hne];
            split; [lia|done]).
  all: intros r [= <-]; split; [lia|].
  all: intros e He; pose proof (certs_live_below _ _ _ _ Hx Hlive He); lia.
Qed.

Lemma exec_wf w opts c s : objects_wf s → objects_wf (exec w opts c s).
Proof.
  intros Hwf. destruct c as [|c]; simpl; [by apply init_wf|].
  destruct (getters_and_deinit_wf s Hwf) as (? & ? & ? & ? & ?).
  destruct c; simpl; auto using forge_wf.
Qed.

Lemma run_wf opts calls s : objects_wf s → objects_wf (run opts calls s).
Proof.
  revert s. apply (run_invariant objects_wf). intros w c s. apply exec_wf.
Qed.

Lemma reachable_wf opts calls : objects_wf (run opts calls initial_state).
Proof. apply run_wf, initial_state_wf. Qed.

(** X7.  In every state the file can reach, two calls of
    [forge_certificate_for_server] for different identities return
    different certificate objects, whatever happens between them, provided
    the hostname of the first call, if it has one, can be copied: an
    address alone and a hostname at that address then never share a
    certificate, and neither do one hostname at two addresses.  (A hostname
    that cannot be copied is filed under its address alone, and a later
    call for that address alone is given the same object.) *)
Theorem different_identities_different_certificates :
  ∀ (opts : pgmopts_t) (before between : list (world * api_call))
    (w1 w2 : world) (hn1 hn2 : option string) (ip1 ip2 : Z) (c1 c2 : X509),
    let s := run opts before initial_state in
    let r1 := forge_certificate_for_server w1 opts hn1 ip1 s in
    let r2 := forge_certificate_for_server w2 opts hn2 ip2
                (run opts between r1.2) in
    hn1 ≫= strdup w1 = hn1 →
    r1.1 = Some c1 → r2.1 = Some c2 → (hn1, ip1) ≠ (hn2, ip2) → c1 ≠ c2.
Proof.
  intros opts before between w1 w2 hn1 hn2 ip1 ip2 c1 c2 s r1 r2
    Hcopy H1 H2 Hne.
  apply (forge_success_cached _ _ _ _ _ _ Hcopy) in H1. fold r1 in H1.
  apply (run_cached opts between) in H1.
  assert (objects_wf (run opts between r1.2)) as (Hx & _ & Hlive & Hnd & _).
  { apply run_wf, forge_wf, reachable_wf. }
  subst r2. revert H1 H2 Hx Hlive Hnd.
  generalize (run opts between r1.2). intros s2 H1 H2 Hx Hlive Hnd.
  destruct H1 as (i1 & e1 & Hg1 & Hl1 & Hc1).
  apply get_server_certificate_entry in Hg1 as (e1' & Hl1' & Hh1 & Hi1).
  assert (e1' = e1) as -> by congruence.
  revert H2.
  destruct (get_server_certificate (server_certificates s2) hn2 ip2)
    as [i2|] eqn:Hg2.
  - destruct (get_server_certificate_entry _ _ _ _ Hg2)
      as (e2 & Hl2 & Hh2 & Hi2).
    rewrite (forge_hit _ _ _ _ _ _ _ Hg2 Hl2). simpl. intros [= <-] Heq.
    assert (i1 = i2) as ->.
    { eapply NoDup_lookup; [exact Hnd| |].
      - rewrite list_lookup_fmap, Hl1. reflexivity.
      - rewrite list_lookup_fmap, Hl2. simpl. by rewrite <- Heq, Hc1. }
    assert (e1 = e2) as -> by congruence.
    destruct Hne. by rewrite <- Hh1, <- Hi1, <- Hh2, <- Hi2.
  - destruct (create_certificate_ok w2 (forge_certspec opts s2 hn2 ip2))
      eqn:Hc.
    + destruct (realloc_ok w2 (length (server_certificates s2) + 1)%nat)
        eqn:Hr.
      * rewrite (forge_miss_inserted _ _ _ _ _ Hg2 Hc Hr). simpl.
        intros [= <-] Heq.
        destruct (Hlive e1) as [n Hn]; [by eapply list_elem_of_lookup_2|].
        rewrite Hc1, Heq in Hn. specialize (Hx _ _ Hn). lia.
      * by rewrite (forge_miss_realloc_fails _ _ _ _ _ Hg2 Hc Hr).
    + by rewrite (forge_miss_create_fails _ _ _ _ _ Hg2 Hc).
Qed.

Lemma different_identities_different_certificates_witness :
  (forge_certificate_for_server world_ok opts_example None ip_10_0_0_1
     (run opts_example [(world_ok, Call_certforgery_init)]
        initial_state)).1 = Some 4%nat ∧
  (4 ≠ 5)%nat.
Proof.
  split; [reflexivity|].
  exact (different_identities_different_certificates opts_example
    [(world_ok, Call_certforgery_init)] [] world_ok world_no_strdup None
    (Some "example.com") ip_10_0_0_1 ip_10_0_0_1 4%nat 5%nat
    eq_refl eq_refl eq_refl ltac:(discriminate)).
Defined.

(** X8.  In every state the file can reach, every certificate of the table
    is a live object holding at least one reference: nothing the file does,
    [certforgery_deinit] included, releases the reference the table owns. *)
Theorem cached_certificates_stay_alive :
  ∀ (opts : pgmopts_t) (calls : list (world * api_call))
    (e : server_certificate_t),
    e ∈ server_certificates (run opts calls initial_state) →
    ∃ n, x509_objs (run opts calls initial_state) !! (certificate e : nat)
         = Some (S n).
Proof.
  intros opts calls e He.
  destruct (reachable_wf opts calls) as (_ & _ & Hlive & _). by apply Hlive.
Qed.

Lemma cached_certificates_stay_alive_witness :
  ∃ n,
    x509_objs
      (run opts_example
         [(world_ok, Call_certforgery_init);
          (world_ok, Call_later
             (Call_forge_certificate_for_server None ip_10_0_0_1));
          (world_ok, Call_later Call_certforgery_deinit)]
         initial_state) !! 4%nat = Some (S n).
Proof.
  apply (cached_certificates_stay_alive opts_example
    [(world_ok, Call_certforgery_init);
     (world_ok, Call_later
        (Call_forge_certificate_for_server None ip_10_0_0_1));
     (world_ok, Call_later Call_certforgery_deinit)]
    {| hostname := None; ipv4_nbo := ip_10_0_0_1; certificate := 4%nat |}).
  vm_compute. apply list_elem_of_here.
Defined.

(** X9.  A successful call of [forge_certificate_for_server] in a reachable
    state gives the caller exactly one reference.  For an identity already
    in the table the count of the returned object goes up by one; for a new
    identity the returned object is new and ends with two references, the
    table's and the caller's. *)
Theorem forge_returns_one_reference :
  ∀ (opts : pgmopts_t) (calls : list (world * api_call)) (w : world)
    (hn : option string) (ip : Z) (c : X509),
    let s := run opts calls initial_state in
    let r := forge_certificate_for_server w opts hn ip s in
    r.1 = Some c →
    match get_server_certificate (server_certificates s) hn ip with
    | Some _ =>
        ∃ n, x509_objs s !! (c : nat) = Some (S n) ∧
             x509_objs r.2 !! (c : nat) = Some (S (S n))
    | None =>
        c = next_object s ∧ x509_objs s !! (c : nat) = None ∧
        x509_objs r.2 !! (c : nat) = Some 2%nat
    end.
Proof.
  intros opts calls w hn ip c s r. subst r.
  destruct (reachable_wf opts calls) as (Hx & _ & Hlive & _). fold s in Hx, Hlive.
  destruct (get_server_certificate (server_certificates s) hn ip)
    as [i|] eqn:Hg.
  - destruct (get_server_certificate_entry _ _ _ _ Hg) as (e & Hl & _).
    rewrite (forge_hit _ _ _ _ _ _ _ Hg Hl). simpl. intros [= <-].
    destruct (Hlive e) as [n Hn]; [by eapply list_elem_of_lookup_2|].
    exists n. split; [done|].
    by rewrite up_ref_lookup, decide_True, Hn.
  - destruct (create_certificate_ok w (forge_certspec opts s hn ip)) eqn:Hc.
    + destruct (realloc_ok w (length (server_certificates s) + 1)%nat)
        eqn:Hr.
      * rewrite (forge_miss_inserted _ _ _ _ _ Hg Hc Hr). simpl.
        intros [= <-]. split_and!; [done| |].
        -- destruct (x509_objs s !! next_object s) eqn:Hl; [|done].
           apply Hx in Hl. lia.
        -- by rewrite up_ref_lookup, decide_True, lookup_insert_eq.
      * by rewrite (forge_miss_realloc_fails _ _ _ _ _ Hg Hc Hr).
    + by rewrite (forge_miss_create_fails _ _ _ _ _ Hg Hc).
Qed.

Lemma forge_returns_one_reference_witness :
  x509_objs
    (forge_certificate_for_server world_ok opts_example None ip_10_0_0_1
       (run opts_example [(world_ok, Call_certforgery_init)]
          initial_state)).2 !! 4%nat = Some 2%nat.
Proof.
  exact (proj2 (proj2 (forge_returns_one_reference opts_example
    [(world_ok, Call_certforgery_init)] world_ok None ip_10_0_0_1 4%nat
    eq_refl))).
Defined.

(** What it means for a heap to have lost nothing: every object is still
    there, with at least the references it had. *)
Lemma kept_refl (h : gmap nat nat) o n :
  h !! o = Some n → ∃ n', h !! o = Some n' ∧ (n ≤ n')%nat.
Proof. eauto. Qed.

Lemma kept_up_ref (h : gmap nat nat) o' o n :
  h !! o = Some n → ∃ n', up_ref o' h !! o = Some n' ∧ (n ≤ n')%nat.
Proof.
  intros Hl. rewrite up_ref_lookup, Hl. case_decide; simpl; eauto.
Qed.

Lemma kept_insert_fresh (h : gmap nat nat) k v o n :
  heap_below h k → h !! o = Some n →
  ∃ n', <[k := v]> h !! o = Some n' ∧ (n ≤ n')%nat.
Proof.
  intros Hb Hl. exists n. split; [|done].
  rewrite lookup_insert_ne; [done|]. apply Hb in Hl. lia.
Qed.

Lemma forge_keeps_objects w opts hn ip s o n :
  objects_wf s →
  x509_objs s !! o = Some n →
  ∃ n', x509_objs (forge_certificate_for_server w opts hn ip s).2 !! o
        = Some n' ∧ (n ≤ n')%nat.
Proof.
  intros (Hx & _) Hl.
  destruct (get_server_certificate (server_certificates s) hn ip)
    as [i|] eqn:Hg.
  - destruct (get_server_certificate_entry _ _ _ _ Hg) as (e & Hle & _).
    rewrite (forge_hit _ _ _ _ _ _ _ Hg Hle). simpl. by apply kept_up_ref.
  - destruct (create_certificate_ok w (forge_certspec opts s hn ip)) eqn:Hc.
    + destruct (realloc_ok w (length (server_certificates s) + 1)%nat)
        eqn:Hr.
      * rewrite (forge_miss_inserted _ _ _ _ _ Hg Hc Hr). simpl.
        exists n. split; [|done].
        rewrite up_ref_lookup, decide_False, lookup_insert_ne;
          [done| |]; apply Hx in Hl; lia.
      * rewrite (forge_miss_realloc_fails _ _ _ _ _ Hg Hc Hr). simpl.
        exists n. split; [|done].
        rewrite drop_ref_lookup, decide_False, lookup_insert_ne;
          [done| |]; apply Hx in Hl; lia.
    + rewrite (forge_miss_create_fails _ _ _ _ _ Hg Hc). simpl. eauto.
Qed.

(** The orchestrator does not touch key objects. *)
Lemma forge_pkey_objs w opts hn ip s :
  pkey_objs (forge_certificate_for_server w opts hn ip s).2 = pkey_objs s.
Proof.
  destruct (get_server_certificate (server_certificates s) hn ip)
    as [i|] eqn:Hg.
  - destruct (get_server_certificate_entry _ _ _ _ Hg) as (e & Hle & _).
    by rewrite (forge_hit _ _ _ _ _ _ _ Hg Hle).
  - destruct (create_certificate_ok w (forge_certspec opts s hn ip)) eqn:Hc.
    + destruct (realloc_ok w (length (server_certificates s) + 1)%nat)
        eqn:Hr.
      * by rewrite (forge_miss_inserted _ _ _ _ _ Hg Hc Hr).
      * by rewrite (forge_miss_realloc_fails _ _ _ _ _ Hg Hc Hr).
    + by rewrite (forge_miss_create_fails _ _ _ _ _ Hg Hc).
Qed.

Lemma init_keeps_objects w opts s :
  objects_wf s →
  (∀ o n, x509_objs s !! o = Some n →
     ∃ n', x509_objs (certforgery_init w opts s).2 !! o = Some n' ∧
           (n ≤ n')%nat) ∧
  (∀ o n, pkey_objs s !! o = Some n →
     ∃ n', pkey_objs (certforgery_init w opts s).2 !! o = Some n' ∧
           (n ≤ n')%nat).
Proof.
  intros (Hx & Hp & _).
  init_cases w opts; split; intros o n Hl; exists n; (split; [|done]).
  all: rewrite ?lookup_insert_ne; [done|..].
  all: first [apply Hx in Hl|apply Hp in Hl]; lia.
Qed.

(** X10.  Only [certforgery_deinit] releases anything that was there
    before.  After any other call that is made in a reachable state and
    returns (an accessor whose handle is [NULL] does not: it ends the
    process), every certificate or key object that was alive is still alive
    with at least the references it had: start-up does not free what an
    earlier start-up loaded, and a failing [forge_certificate_for_server]
    frees only the certificate it has just created. *)
Theorem only_deinit_releases :
  ∀ (opts : pgmopts_t) (calls : list (world * api_call)) (w : world)
    (c : api_call) (o n : nat),
    let s := run opts calls initial_state in
    is_deinit c = false →
    crashed (exec w opts c s) = false →
    (x509_objs s !! o = Some n →
     ∃ n', x509_objs (exec w opts c s) !! o = Some n' ∧ (n ≤ n')%nat) ∧
    (pkey_objs s !! o = Some n →
     ∃ n', pkey_objs (exec w opts c s) !! o = Some n' ∧ (n ≤ n')%nat).
Proof.
  intros opts calls w c o n s Hc _.
  pose proof (reachable_wf opts calls) as Hwf. fold s in Hwf.
  destruct c as [|[hn ip| | | | |]]; simpl in *; try discriminate.
  - destruct (init_keeps_objects w opts s Hwf) as [Hx Hp]. eauto.
  - split; intros Hl.
    + by apply forge_keeps_objects.
    + rewrite forge_pkey_objs. eauto.
  - unfold get_forged_root_certificate.
    destruct s as [[rc|] rk sk ck tbl xo po no tr]; step_m;
      split; intros Hl; eauto using kept_up_ref.
  - unfold get_forged_root_key.
    destruct s as [rc [rk|] sk ck tbl xo po no tr]; step_m;
      split; intros Hl; eauto using kept_up_ref.
  - unfold get_tls_server_key.
    destruct s as [rc rk [sk|] ck tbl xo po no tr]; step_m;
      split; intros Hl; eauto using kept_up_ref.
  - unfold get_tls_client_key.
    destruct s as [rc rk sk [ck|] tbl xo po no tr]; step_m;
      split; intros Hl; eauto using kept_up_ref.
Qed.

Lemma only_deinit_releases_witness :
  ∃ n',
    pkey_objs
      (exec world_no_root_key opts_example Call_certforgery_init
         (run opts_example [(world_ok, Call_certforgery_init)]
            initial_state)) !! 0%nat = Some n' ∧ (1 ≤ n')%nat.
Proof.
  exact (proj2 (only_deinit_releases opts_example
    [(world_ok, Call_certforgery_init)] world_no_root_key
    Call_certforgery_init 0%nat 1%nat eq_refl eq_refl) eq_refl).
Defined.

(** ** Start-up and shut-down *)

(** X11.  After a successful [certforgery_init] the three key handles name
    three different objects created by this call, each with exactly one
    reference.  The root certificate handle names a fourth new object with
    one reference, or is [NULL] when loading the certificate failed. *)
Theorem certforgery_init_success_state :
  ∀ (w : world) (opts : pgmopts_t) (s : state),
    (certforgery_init w opts s).1 = true →
    let r := (certforgery_init w opts s).2 in
    let n := next_object s in
    root_ca_key r = Some n ∧ server_key r = Some (S n) ∧
    client_key r = Some (S (S n)) ∧
    pkey_objs r !! n = Some 1%nat ∧ pkey_objs r !! S n = Some 1%nat ∧
    pkey_objs r !! S (S n) = Some 1%nat ∧
    (root_ca r = Some (S (S (S n))) ∧
     x509_objs r !! S (S (S n)) = Some 1%nat ∨
     root_ca r = None ∧ x509_objs r = x509_objs s).
Proof.
  intros w opts s. init_cases w opts; try discriminate; intros _.
  all: split_and!; try done;
    rewrite ?lookup_insert_eq, ?lookup_insert_ne by lia;
    rewrite ?lookup_insert_eq, ?lookup_insert_ne by lia;
    rewrite ?lookup_insert_eq; try done.
  - left. split; [done|]. by rewrite ?lookup_insert_eq.
  - by right.
Qed.

Lemma certforgery_init_success_state_witness :
  root_ca_key started = Some 0%nat ∧ pkey_objs started !! 0%nat = Some 1%nat.
Proof.
  pose proof (certforgery_init_success_state world_ok opts_example
                initial_state eq_refl) as (Hk & _ & _ & Hn & _).
  split; [exact Hk|exact Hn].
Defined.

(** X12.  When [certforgery_init] returns [false], the last thing it did
    was to log a fatal message, and it did so before touching the root
    certificate: the load-or-create primitive for the certificate was not
    called, [root_ca] and the certificate objects are as before. *)
Theorem certforgery_init_failure_state :
  ∀ (w : world) (opts : pgmopts_t) (s : state),
    (certforgery_init w opts s).1 = false →
    let r := (certforgery_init w opts s).2 in
    root_ca r = root_ca s ∧ x509_objs r = x509_objs s ∧
    (∃ msg, last (trace r) = Some (Ev_logmsg LLVL_FATAL msg)) ∧
    ∃ evs, trace r = trace s ++ evs ∧
      ∀ spec f selfsigned ca res,
        Ev_load_stored_certificate spec f selfsigned ca res ∉ evs.
Proof.
  intros w opts s. init_cases w opts; intros Hok; try discriminate Hok.
  all: split_and!; try done.
  all: try (eexists; rewrite !last_app; simpl; reflexivity).
  all: rewrite <- ?app_assoc; eexists; (split; [reflexivity|]).
  all: intros ? ? ? ? ? Hin; elim_in_init.
Qed.

Lemma certforgery_init_failure_state_witness :
  root_ca (certforgery_init world_no_root_key opts_example started).2
  = Some 3%nat.
Proof.
  exact (proj1 (certforgery_init_failure_state world_no_root_key
    opts_example started eq_refl)).
Defined.

Lemma certforgery_deinit_eq s :
  certforgery_deinit s
  = (tt,
     set_pkey_objs
       (drop_ref_opt (client_key s)
          (drop_ref_opt (server_key s)
             (drop_ref_opt (root_ca_key s) (pkey_objs s))))
       (set_x509_objs (drop_ref_opt (root_ca s) (x509_objs s)) s)).
Proof.
  unfold certforgery_deinit.
  destruct s as [[c|] [k1|] [k2|] [k3|] tbl xo po no tr]; reflexivity.
Qed.

Lemma getter_eq w opts g s :
  root_ca s ≠ None → root_ca_key s ≠ None → server_key s ≠ None →
  client_key s ≠ None →
  exec_later w opts (later_of_getter g) s
  = match g with
    | Get_forged_root_certificate =>
        set_x509_objs (up_ref_opt (root_ca s) (x509_objs s)) s
    | Get_forged_root_key =>
        set_pkey_objs (up_ref_opt (root_ca_key s) (pkey_objs s)) s
    | Get_tls_server_key =>
        set_pkey_objs (up_ref_opt (server_key s) (pkey_objs s)) s
    | Get_tls_client_key =>
        set_pkey_objs (up_ref_opt (client_key s) (pkey_objs s)) s
    end.
Proof.
  destruct g, s as [[c|] [k1|] [k2|] [k3|] tbl xo po no tr];
    simpl; intros; done.
Qed.

Lemma calls_of_cons g g' gs :
  calls_of g (g' :: gs)
  = ((if decide (g' = g) then 1 else 0) + calls_of g gs)%nat.
Proof.
  unfold calls_of. rewrite filter_cons. by case_decide.
Qed.

Lemma drop_fresh_object (h : gmap nat nat) k :
  h !! k = None → drop_ref k (<[k := 1%nat]> h) = h.
Proof.
  intros Hk. rewrite drop_only_reference, delete_insert_eq.
  by apply delete_id.
Qed.

(** The state a successful start-up leaves: three new keys, and a new root
    certificate or none. *)
Lemma certforgery_init_success w opts s :
  (certforgery_init w opts s).1 = true →
  let n := next_object s in
  ∃ evs rc xo no,
    (certforgery_init w opts s).2
    = {| root_ca := rc; root_ca_key := Some n; server_key := Some (S n);
         client_key := Some (S (S n));
         server_certificates := server_certificates s;
         x509_objs := xo;
         pkey_objs :=
           <[S (S n) := 1%nat]>
             (<[S n := 1%nat]> (<[n := 1%nat]> (pkey_objs s)));
         next_object := no; trace := trace s ++ evs |} ∧
    (rc = Some (S (S (S n))) ∧
     xo = <[S (S (S n)) := 1%nat]> (x509_objs s) ∧
     no = S (S (S (S n))) ∨
     rc = None ∧ xo = x509_objs s ∧ no = S (S (S n))).
Proof.
  init_cases w opts; intros Hok; try discriminate Hok;
    rewrite <- ?app_assoc; eexists _, _, _, _; (split; [reflexivity|]);
    auto.
Qed.

Lemma drop_ref_one (h : gmap nat nat) o :
  h !! o = Some 1%nat → drop_ref o h = delete o h.
Proof. intros Hl. unfold drop_ref. by rewrite Hl. Qed.

(** Three objects created one after the other and released again. *)
Lemma drop_three_fresh (p : gmap nat nat) n :
  p !! n = None → p !! S n = None → p !! S (S n) = None →
  drop_ref (S (S n))
    (drop_ref (S n)
       (drop_ref n
          (<[S (S n) := 1%nat]>
             (<[S n := 1%nat]> (<[n := 1%nat]> p))))) = p.
Proof.
  intros H0 H1 H2.
  rewrite (drop_ref_one _ n);
    [|by rewrite !lookup_insert_ne, lookup_insert_eq by lia].
  rewrite (drop_ref_one _ (S n));
    [|by rewrite lookup_delete_ne, lookup_insert_ne, lookup_insert_eq
        by lia].
  rewrite (drop_ref_one _ (S (S n)));
    [|by rewrite !lookup_delete_ne, lookup_insert_eq by lia].
  apply map_eq. intros o. rewrite !lookup_delete, !lookup_insert.
  repeat case_decide; subst; done.
Qed.

(** X13.  A successful start-up followed directly by [certforgery_deinit]
    releases everything the start-up acquired: both object heaps are what
    they were before the start-up.  The four handles are not reset; they
    still name the released objects. *)
Theorem init_then_deinit_releases_everything :
  ∀ (opts : pgmopts_t) (calls : list (world * api_call)) (w : world),
    let s := run opts calls initial_state in
    let r := certforgery_init w opts s in
    let s' := (certforgery_deinit r.2).2 in
    r.1 = true → root_ca r.2 ≠ None →
    x509_objs s' = x509_objs s ∧ pkey_objs s' = pkey_objs s ∧
    root_ca s' = root_ca r.2 ∧ root_ca_key s' = root_ca_key r.2 ∧
    server_key s' = server_key r.2 ∧ client_key s' = client_key r.2 ∧
    (∀ k, root_ca_key s' = Some k → pkey_objs s' !! k = None).
Proof.
  intros opts calls w s r s' Hok Hroot. subst r s'.
  destruct (reachable_wf opts calls) as (Hx & Hp & _). fold s in Hx, Hp.
  assert (∀ (h : gmap nat nat) k,
            heap_below h (next_object s) → (next_object s ≤ k)%nat →
            h !! k = None) as Hfresh.
  { intros h k Hb Hk. destruct (h !! k) eqn:Hl; [|done].
    apply Hb in Hl. lia. }
  destruct (certforgery_init_success w opts s Hok)
    as (evs & rc & xo & no & Heq & Hcase).
  rewrite Heq in Hroot |- *. rewrite certforgery_deinit_eq. simpl in *.
  destruct Hcase as [(-> & -> & ->)|(-> & _)]; [|done]. simpl.
  split_and!; try done.
  - apply drop_fresh_object. auto.
  - apply drop_three_fresh; auto.
  - intros k [= <-]. rewrite drop_three_fresh; auto.
Qed.

Lemma init_then_deinit_releases_everything_witness :
  pkey_objs (certforgery_deinit started).2 = ∅ ∧
  root_ca_key (certforgery_deinit started).2 = Some 0%nat.
Proof.
  pose proof (init_then_deinit_releases_everything opts_example [] world_ok
                eq_refl ltac:(discriminate)) as (_ & Hp & _ & Hk & _).
  split; [exact Hp|exact Hk].
Defined.

(** Accessor calls on handles that are all set return, leave the handles
    alone and add one reference per call to the object behind the handle
    they return. *)
Lemma run_getters_counts opts gs :
  ∀ s (a b c d : nat),
    root_ca_key s = Some a → server_key s = Some b → client_key s = Some c →
    root_ca s = Some d → crashed s = false →
    a ≠ b → a ≠ c → b ≠ c →
    let s' := run_getters opts gs s in
    root_ca s' = root_ca s ∧ root_ca_key s' = Some a ∧
    server_key s' = Some b ∧ client_key s' = Some c ∧
    crashed s' = false ∧
    (∀ na, pkey_objs s !! a = Some na →
       pkey_objs s' !! a = Some (na + calls_of Get_forged_root_key gs)%nat) ∧
    (∀ nb, pkey_objs s !! b = Some nb →
       pkey_objs s' !! b = Some (nb + calls_of Get_tls_server_key gs)%nat) ∧
    (∀ nc, pkey_objs s !! c = Some nc →
       pkey_objs s' !! c = Some (nc + calls_of Get_tls_client_key gs)%nat) ∧
    (∀ nd, x509_objs s !! d = Some nd →
       x509_objs s' !! d
       = Some (nd + calls_of Get_forged_root_certificate gs)%nat).
Proof.
  induction gs as [|g gs IH]; intros s a b c d Ha Hb Hc Hd Hlive Hab Hac Hbc.
  - unfold calls_of. simpl. split_and!; try done.
    all: intros; rewrite Nat.add_0_r; done.
  - unfold run_getters. rewrite fmap_cons, run_later_cons, Hlive.
    rewrite (getter_eq world_ok opts g s)
      by (rewrite ?Ha, ?Hb, ?Hc, ?Hd; done).
    rewrite !calls_of_cons.
    destruct s as [rc rk sk ck tbl xo po no tr]. simpl in Ha, Hb, Hc, Hd.
    subst rc rk sk ck.
    destruct g; simpl;
      match goal with
      | |- context [run_later opts _ ?st] =>
          pose proof (IH st a b c d eq_refl eq_refl eq_refl eq_refl Hlive
                        Hab Hac Hbc) as IH';
          cbv zeta in IH'; unfold run_getters in IH';
          destruct IH' as (I1 & I2 & I3 & I4 & I0 & I5 & I6 & I7 & I8)
      end;
      simpl in I1, I5, I6, I7, I8; split_and!; try done.
    + intros nd Hl.
      rewrite (I8 (S nd)); [f_equal; lia|].
      by rewrite up_ref_lookup, decide_True, Hl.
    + intros na Hl. rewrite (I5 (S na)); [f_equal; lia|].
      by rewrite up_ref_lookup, decide_True, Hl.
    + intros nb Hl. apply I6. by rewrite up_ref_lookup, decide_False.
    + intros nc Hl. apply I7. by rewrite up_ref_lookup, decide_False.
    + intros na Hl. apply I5. by rewrite up_ref_lookup, decide_False.
    + intros nb Hl. rewrite (I6 (S nb)); [f_equal; lia|].
      by rewrite up_ref_lookup, decide_True, Hl.
    + intros nc Hl. apply I7. by rewrite up_ref_lookup, decide_False.
    + intros na Hl. apply I5. by rewrite up_ref_lookup, decide_False.
    + intros nb Hl. apply I6. by rewrite up_ref_lookup, decide_False.
    + intros nc Hl. rewrite (I7 (S nc)); [f_equal; lia|].
      by rewrite up_ref_lookup, decide_True, Hl.
Qed.

Lemma drop_ref_counted (h : gmap nat nat) o k :
  h !! o = Some (1 + k)%nat → drop_ref o h !! o = outstanding k.
Proof.
  intros Hl. rewrite drop_ref_lookup, decide_True, Hl by done.
  by destruct k.
Qed.

Lemma deinit_key_counts s (a b c : nat) ka kb kc :
  root_ca_key s = Some a → server_key s = Some b → client_key s = Some c →
  a ≠ b → a ≠ c → b ≠ c →
  pkey_objs s !! a = Some (1 + ka)%nat →
  pkey_objs s !! b = Some (1 + kb)%nat →
  pkey_objs s !! c = Some (1 + kc)%nat →
  pkey_objs (certforgery_deinit s).2 !! a = outstanding ka ∧
  pkey_objs (certforgery_deinit s).2 !! b = outstanding kb ∧
  pkey_objs (certforgery_deinit s).2 !! c = outstanding kc.
Proof.
  intros Ha Hb Hc Hab Hac Hbc Hla Hlb Hlc.
  rewrite certforgery_deinit_eq. simpl. rewrite Ha, Hb, Hc. simpl.
  split_and!.
  - rewrite drop_ref_lookup, decide_False by done.
    rewrite drop_ref_lookup, decide_False by done.
    by apply drop_ref_counted.
  - rewrite drop_ref_lookup, decide_False by done.
    apply drop_ref_counted. by rewrite drop_ref_lookup, decide_False.
  - apply drop_ref_counted.
    rewrite drop_ref_lookup, decide_False by done.
    by rewrite drop_ref_lookup, decide_False.
Qed.

(** X14.  Reference accounting of the accessors.  After a start-up that
    succeeded and loaded the root certificate, in a running process, every
    accessor call returns and adds one reference to the object it returns,
    so each key and the root certificate hold one reference more than the
    number of calls of their accessor.  [certforgery_deinit] then drops the
    file's own reference only: an object survives with exactly the
    references handed out, and is freed when none was.  (With the root
    certificate handle left [NULL], [get_forged_root_certificate] ends the
    process instead.) *)
Theorem getter_references_outlive_deinit :
  ∀ (w : world) (opts : pgmopts_t) (s : state) (gs : list getter) (d : nat),
    (certforgery_init w opts s).1 = true →
    let s1 := (certforgery_init w opts s).2 in
    let s2 := run_getters opts gs s1 in
    let s3 := (certforgery_deinit s2).2 in
    let n := next_object s in
    root_ca s1 = Some d →
    crashed s1 = false →
    crashed s3 = false ∧
    (pkey_objs s2 !! n = Some (1 + calls_of Get_forged_root_key gs)%nat ∧
     pkey_objs s2 !! S n = Some (1 + calls_of Get_tls_server_key gs)%nat ∧
     pkey_objs s2 !! S (S n)
     = Some (1 + calls_of Get_tls_client_key gs)%nat) ∧
    (pkey_objs s3 !! n = outstanding (calls_of Get_forged_root_key gs) ∧
     pkey_objs s3 !! S n = outstanding (calls_of Get_tls_server_key gs) ∧
     pkey_objs s3 !! S (S n)
     = outstanding (calls_of Get_tls_client_key gs)) ∧
    (x509_objs s2 !! d
     = Some (1 + calls_of Get_forged_root_certificate gs)%nat ∧
     x509_objs s3 !! d
     = outstanding (calls_of Get_forged_root_certificate gs)).
Proof.
  intros w opts s gs d Hok s1 s2 s3 n Hd Hlive.
  assert (root_ca_key s1 = Some n ∧ server_key s1 = Some (S n) ∧
          client_key s1 = Some (S (S n)) ∧
          pkey_objs s1 !! n = Some 1%nat ∧
          pkey_objs s1 !! S n = Some 1%nat ∧
          pkey_objs s1 !! S (S n) = Some 1%nat ∧
          x509_objs s1 !! d = Some 1%nat)
    as (Ha & Hb & Hc & Hla & Hlb & Hlc & Hld).
  { destruct (certforgery_init_success w opts s Hok)
      as (evs & rc & xo & no & Heq & Hcase).
    subst s1 s2 s3 n. revert Hd. rewrite Heq. simpl.
    intros ->.
    split_and!; try done;
      rewrite ?lookup_insert_eq, ?lookup_insert_ne by lia;
      rewrite ?lookup_insert_eq, ?lookup_insert_ne by lia;
      rewrite ?lookup_insert_eq; try done.
    destruct Hcase as [([= <-] & -> & _)|(? & _)]; [|done].
    by rewrite lookup_insert_eq. }
  destruct (run_getters_counts opts gs s1 n (S n) (S (S n)) d Ha Hb Hc
              Hd Hlive ltac:(lia) ltac:(lia) ltac:(lia))
    as (Hrc & Ha2 & Hb2 & Hc2 & Hlive2 & Hka & Hkb & Hkc & Hkd).
  fold s2 in Hrc, Ha2, Hb2, Hc2, Hlive2, Hka, Hkb, Hkc, Hkd.
  specialize (Hka _ Hla). specialize (Hkb _ Hlb). specialize (Hkc _ Hlc).
  specialize (Hkd _ Hld).
  destruct (deinit_key_counts s2 n (S n) (S (S n)) _ _ _ Ha2 Hb2 Hc2
              ltac:(lia) ltac:(lia) ltac:(lia) Hka Hkb Hkc)
    as (Hda & Hdb & Hdc).
  split_and!; try done.
  - subst s3. by rewrite certforgery_deinit_eq.
  - subst s3. rewrite certforgery_deinit_eq. simpl. rewrite Hrc, Hd. simpl.
    by apply drop_ref_counted.
Qed.

Lemma getter_references_outlive_deinit_witness :
  pkey_objs
    (certforgery_deinit
       (run_getters opts_example
          [Get_tls_server_key; Get_forged_root_key; Get_tls_server_key]
          started)).2 !! 1%nat = Some 2%nat ∧
  pkey_objs
    (certforgery_deinit
       (run_getters opts_example
          [Get_tls_server_key; Get_forged_root_key; Get_tls_server_key]
          started)).2 !! 2%nat = None.
Proof.
  pose proof (getter_references_outlive_deinit world_ok opts_example
                initial_state
                [Get_tls_server_key; Get_forged_root_key; Get_tls_server_key]
                3%nat eq_refl eq_refl eq_refl)
    as (_ & _ & (_ & Hserver & Hclient) & _).
  split; [exact Hserver|exact Hclient].
Defined.

(** ** What the collaborators are asked for *)

Lemma forge_certspec_fields opts s hn ip :
  let spec := forge_certspec opts s hn ip in
  is_ca_certificate spec = false ∧ description spec = "TLS server" ∧
  mark_certificate spec = forged_certs_mark_forged_certificates opts ∧
  crl_uri spec = forged_certs_crl_uri opts ∧
  ocsp_responder_uri spec = forged_certs_ocsp_responder_uri opts ∧
  subject_alternative_dns_hostname spec = hn ∧
  subject_alternative_ipv4_address spec = ip ∧
  common_name spec = Some (default (dotted_decimal ip) hn).
Proof.
  unfold forge_certspec. destruct hn as [h|]; simpl; split_and!; try done.
  by rewrite snprintf_dotted_decimal, PRI_IPv4_dotted_decimal.
Qed.

Lemma certforgery_init_constructs_nothing w opts s :
  ∃ evs, trace (certforgery_init w opts s).2 = trace s ++ evs ∧
    ∀ spec res, Ev_create_certificate spec res ∉ evs.
Proof.
  init_cases w opts; rewrite <- ?app_assoc;
    (eexists; split; [reflexivity|]); intros ? ? Hin; elim_in_init.
Qed.

Lemma exec_constructs w opts c s :
  ∃ evs, trace (exec w opts c s) = trace s ++ evs ∧
    ∀ spec res, Ev_create_certificate spec res ∈ evs →
      ∃ hn ip, request_of c = Some (hn, ip) ∧
               spec = forge_certspec opts s hn ip.
Proof.
  destruct c as [|[hn ip| | | | |]]; simpl.
  - destruct (certforgery_init_constructs_nothing w opts s)
      as (evs & Ht & Hno).
    exists evs. split; [done|]. intros spec res Hin. by destruct (Hno _ _ Hin).
  - destruct (forge_frame w opts hn ip s) as (_ & evs & Ht & Hspec).
    exists evs. split; [done|]. intros spec res ->%Hspec. eauto.
  - destruct s as [[c|] rk sk ck tbl xo po no tr];
      first [ exists []; rewrite app_nil_r; split; [done|]
            | exists [Ev_segfault]; split; [done|] ];
      intros ? ? Hin; elim_in.
  - destruct s as [rc [rk|] sk ck tbl xo po no tr];
      first [ exists []; rewrite app_nil_r; split; [done|]
            | exists [Ev_segfault]; split; [done|] ];
      intros ? ? Hin; elim_in.
  - destruct s as [rc rk [sk|] ck tbl xo po no tr];
      first [ exists []; rewrite app_nil_r; split; [done|]
            | exists [Ev_segfault]; split; [done|] ];
      intros ? ? Hin; elim_in.
  - destruct s as [rc rk sk [ck|] tbl xo po no tr];
      first [ exists []; rewrite app_nil_r; split; [done|]
            | exists [Ev_segfault]; split; [done|] ];
      intros ? ? Hin; elim_in.
  - exists []. rewrite app_nil_r. split; [|intros ? ? Hin; elim_in].
    by destruct s as [[c|] [k1|] [k2|] [k3|] tbl xo po no tr].
Qed.

(** X15.  Over any run, the construction primitive is only ever asked for
    leaf certificates of identities somebody requested: every specification
    it receives is not a CA certificate, is described as "TLS server",
    carries the mark, CRL and OCSP settings of the configuration, and names
    the hostname and address of a call of [forge_certificate_for_server] of
    that run, with the hostname (or, without one, the dotted-decimal
    address) as common name. *)
Theorem only_requested_leaves_are_constructed :
  ∀ (opts : pgmopts_t) (calls : list (world * api_call)) (s : state),
    ∃ evs, trace (run opts calls s) = trace s ++ evs ∧
      ∀ spec res, Ev_create_certificate spec res ∈ evs →
        is_ca_certificate spec = false ∧
        description spec = "TLS server" ∧
        mark_certificate spec = forged_certs_mark_forged_certificates opts ∧
        crl_uri spec = forged_certs_crl_uri opts ∧
        ocsp_responder_uri spec = forged_certs_ocsp_responder_uri opts ∧
        ∃ w hn ip,
          (w, Call_later (Call_forge_certificate_for_server hn ip)) ∈ calls ∧
          subject_alternative_dns_hostname spec = hn ∧
          subject_alternative_ipv4_address spec = ip ∧
          common_name spec = Some (default (dotted_decimal ip) hn).
Proof.
  intros opts calls. induction calls as [|[w c] calls IH]; intros s.
  - exists []. rewrite app_nil_r. split; [done|]. intros ? ? Hin. elim_in.
  - rewrite run_cons. destruct (crashed s).
    { destruct (IH s) as (evs & Ht & Hs). exists evs. split; [done|].
      intros spec res Hin.
      destruct (Hs _ _ Hin) as (? & ? & ? & ? & ? & w' & hn & ip & ? & ?).
      split_and!; try done. exists w', hn, ip.
      split; [by apply list_elem_of_further|done]. }
    destruct (exec_constructs w opts c s) as (evs1 & Ht1 & Hs1).
    destruct (IH (exec w opts c s)) as (evs2 & Ht2 & Hs2).
    exists (evs1 ++ evs2). split; [by rewrite Ht2, Ht1, app_assoc|].
    intros spec res [Hin|Hin]%elem_of_app.
    + destruct (Hs1 _ _ Hin) as (hn & ip & Hreq & ->).
      destruct (forge_certspec_fields opts s hn ip)
        as (? & ? & ? & ? & ? & ? & ? & ?).
      split_and!; try done. exists w, hn, ip. split_and!; try done.
      destruct c as [|[]]; try discriminate. injection Hreq as -> ->.
      apply list_elem_of_here.
    + destruct (Hs2 _ _ Hin) as (? & ? & ? & ? & ? & w' & hn & ip & ? & ?).
      split_and!; try done. exists w', hn, ip.
      split; [by apply list_elem_of_further|done].
Qed.

(** X16.  What [certforgery_init] asks the load-or-create primitive for the
    root certificate: a self-signed CA certificate (both flags set, no
    issuer certificate) whose subject key and issuer key are the root key
    loaded by this same call, named "Evil root certificate", at the file
    name built for "root.crt".  Whatever the primitive returns is stored in
    [root_ca], and the call reports success. *)
Theorem root_certificate_request :
  ∀ (w : world) (opts : pgmopts_t) (s : state),
    let r := certforgery_init w opts s in
    ∃ evs, trace r.2 = trace s ++ evs ∧
      ∀ spec f selfsigned ca res,
        Ev_load_stored_certificate spec f selfsigned ca res ∈ evs →
        selfsigned = true ∧ ca = true ∧
        is_ca_certificate spec = true ∧ issuer_certificate spec = None ∧
        subject_pubkey spec = Some (next_object s) ∧
        issuer_privkey spec = Some (next_object s) ∧
        root_ca_key r.2 = Some (next_object s) ∧
        common_name spec = Some "Evil root certificate" ∧
        subject_alternative_dns_hostname spec = None ∧
        crl_uri spec = None ∧ ocsp_responder_uri spec = None ∧
        mark_certificate spec = forged_certs_mark_forged_certificates opts ∧
        get_root_ca_filename w opts = Some f ∧
        root_ca r.2 = res ∧ r.1 = true.
Proof.
  intros w opts s r. subst r.
  init_cases w opts; rewrite <- ?app_assoc;
    (eexists; split; [reflexivity|]); intros ? ? ? ? ? Hin; elim_in_init.
  all: injection Hin as -> -> -> -> ->; split_and!; done.
Qed.

(** X17.  What [certforgery_init] asks the key primitive for.  Every key
    load of a start-up is for the root, the server or the client key, with
    the description "root", "TLS server" or "TLS client", at the file name
    built for "root.key", "server.key" or "client.key", and its result is
    what ends up in the matching handle.  The three specifications differ in
    the description only: for an RSA configuration each names RSA with the
    configured modulus length, for an elliptic-curve configuration each
    names the curve of the configuration. *)
Theorem key_load_requests :
  ∀ (w : world) (opts : pgmopts_t) (s : state),
    let r := certforgery_init w opts s in
    (∀ d, ks_description (keyspec_for opts d) = d ∧
       match keyspec_keytype opts with
       | KEYTYPE_RSA =>
           cryptosystem (keyspec_for opts d) = Some CRYPTOSYSTEM_RSA ∧
           rsa_bitlength (keyspec_for opts d)
           = keyspec_rsa_modulus_length_bits opts
       | KEYTYPE_ECC =>
           cryptosystem (keyspec_for opts d) = Some CRYPTOSYSTEM_ECC_FP ∧
           ecc_fp_curve_name (keyspec_for opts d)
           = keyspec_ecc_curvename opts
       | KEYTYPE_other _ => cryptosystem (keyspec_for opts d) = None
       end) ∧
    ∃ evs, trace r.2 = trace s ++ evs ∧
      ∀ spec f res, Ev_load_stored_key spec f res ∈ evs →
        (spec = keyspec_for opts "root" ∧
         get_config_filename w opts "root.key" = Some f ∧
         root_ca_key r.2 = res) ∨
        (spec = keyspec_for opts "TLS server" ∧
         get_config_filename w opts "server.key" = Some f ∧
         server_key r.2 = res) ∨
        (spec = keyspec_for opts "TLS client" ∧
         get_config_filename w opts "client.key" = Some f ∧
         client_key r.2 = res).
Proof.
  intros w opts s r. subst r. split.
  - intros d. unfold keyspec_for, fill_pgmopts_keyspec.
    by destruct (keyspec_keytype opts).
  - init_cases w opts; rewrite <- ?app_assoc;
      (eexists; split; [reflexivity|]); intros ? ? ? Hin; elim_in_init.
    all: injection Hin as -> -> ->; auto 10.
Qed.
